(** * nginx-operator: the deployment and service builders of [pkg/stub/k8s]

    A shallow embedding of [pkg/stub/k8s/k8s.go] together with a model of the
    parts of Go's [encoding/json] and [unicode/utf8] that [SetNginxSpec] and
    [ExtractNginxSpec] go through, and the properties of the builders stated
    in the specification. *)

From Stdlib Require Import ZArith Ascii String Lia.
From stdpp Require Import base option list strings gmap sorting.

Local Open Scope Z_scope.

(** ** Go values *)

(** A Go [error] built by [fmt.Errorf] is its message. *)
Definition error : Type := string.

(** The [(value, error)] result of a fallible Go function. *)
Inductive result (A : Type) : Type :=
| Ok (a : A)
| Err (e : error).
Arguments Ok {A} a.
Arguments Err {A} e.

(** Go strings are byte strings; a byte is an [ascii]. *)
Definition byteVal (c : ascii) : Z := Z.of_N (N_of_ascii c).
Definition byteOf (z : Z) : ascii := ascii_of_N (Z.to_N z).

(** The double quote character. *)
Definition dquote : ascii := "034"%char.
Definition backslash : ascii := "092"%char.

Fixpoint takeS (n : nat) (s : string) : string :=
  match n, s with
  | S n', String c r => String c (takeS n' r)
  | _, _ => EmptyString
  end.

Fixpoint dropS (n : nat) (s : string) : string :=
  match n, s with
  | S n', String _ r => dropS n' r
  | _, _ => s
  end.

(** ** [unicode/utf8] *)

Module utf8.

Definition RuneError : Z := 0xFFFD.
Definition RuneSelf : Z := 0x80.
Definition MaxRune : Z := 0x10FFFF.

(** A continuation byte [10xxxxxx]. *)
Definition isCont (b : Z) : bool := (0x80 <=? b) && (b <=? 0xBF).

(** [first] and [acceptRanges]: for a leading byte, the length of the
    sequence and the range accepted for the second byte. *)
Definition leading (b0 : Z) : option (nat * Z * Z) :=
  if (0xC2 <=? b0) && (b0 <=? 0xDF) then Some (2%nat, 0x80, 0xBF)
  else if b0 =? 0xE0 then Some (3%nat, 0xA0, 0xBF)
  else if (0xE1 <=? b0) && (b0 <=? 0xEC) then Some (3%nat, 0x80, 0xBF)
  else if b0 =? 0xED then Some (3%nat, 0x80, 0x9F)
  else if (0xEE <=? b0) && (b0 <=? 0xEF) then Some (3%nat, 0x80, 0xBF)
  else if b0 =? 0xF0 then Some (4%nat, 0x90, 0xBF)
  else if (0xF1 <=? b0) && (b0 <=? 0xF3) then Some (4%nat, 0x80, 0xBF)
  else if b0 =? 0xF4 then Some (4%nat, 0x80, 0x8F)
  else None.

(** [utf8.DecodeRuneInString]: the first rune of [s] and its width in bytes;
    [(RuneError, 1)] for an encoding that is not valid, [(RuneError, 0)] for
    the empty string.  The masks and shifts of the library ([s0&mask2 << 6 |
    s1&maskx], ...) are written as the remainders and products they compute. *)
Definition DecodeRuneInString (s : string) : Z * nat :=
  match s with
  | EmptyString => (RuneError, 0%nat)
  | String c0 s1 =>
    let b0 := byteVal c0 in
    if b0 <? RuneSelf then (b0, 1%nat)
    else
      match leading b0 with
      | None => (RuneError, 1%nat)
      | Some (sz, lo, hi) =>
        match s1 with
        | EmptyString => (RuneError, 1%nat)
        | String c1 s2 =>
          let b1 := byteVal c1 in
          if (b1 <? lo) || (hi <? b1) then (RuneError, 1%nat)
          else if (sz <=? 2)%nat then ((b0 mod 32) * 64 + b1 mod 64, 2%nat)
          else
            match s2 with
            | EmptyString => (RuneError, 1%nat)
            | String c2 s3 =>
              let b2 := byteVal c2 in
              if negb (isCont b2) then (RuneError, 1%nat)
              else if (sz <=? 3)%nat then
                ((b0 mod 16) * 4096 + (b1 mod 64) * 64 + b2 mod 64, 3%nat)
              else
                match s3 with
                | EmptyString => (RuneError, 1%nat)
                | String c3 _ =>
                  let b3 := byteVal c3 in
                  if negb (isCont b3) then (RuneError, 1%nat)
                  else ((b0 mod 8) * 262144 + (b1 mod 64) * 4096
                        + (b2 mod 64) * 64 + b3 mod 64, 4%nat)
                end
            end
        end
      end
  end.

(** [utf8.EncodeRune] on a rune that is not negative. *)
Definition EncodeRune (r : Z) : string :=
  if r <=? 0x7F then String (byteOf r) EmptyString
  else if r <=? 0x7FF then
    String (byteOf (0xC0 + r / 64)) (String (byteOf (0x80 + r mod 64)) EmptyString)
  else
    let r := if (MaxRune <? r) || ((0xD800 <=? r) && (r <=? 0xDFFF))
             then RuneError else r in
    if r <=? 0xFFFF then
      String (byteOf (0xE0 + r / 4096))
        (String (byteOf (0x80 + (r / 64) mod 64))
           (String (byteOf (0x80 + r mod 64)) EmptyString))
    else
      String (byteOf (0xF0 + r / 262144))
        (String (byteOf (0x80 + (r / 4096) mod 64))
           (String (byteOf (0x80 + (r / 64) mod 64))
              (String (byteOf (0x80 + r mod 64)) EmptyString))).

(** [utf8.ValidString], as the loop over the runes of [s]. *)
Fixpoint validLoop (fuel : nat) (s : string) : bool :=
  match fuel with
  | O => true
  | S fuel =>
    match s with
    | EmptyString => true
    | String _ _ =>
      let '(r, size) := DecodeRuneInString s in
      if (r =? RuneError) && (size =? 1)%nat then false
      else validLoop fuel (dropS size s)
    end
  end.

Definition ValidString (s : string) : bool := validLoop (String.length s) s.

End utf8.

(** ** [encoding/json]

    The encoder writes the compact text that [json.Marshal] produces; the
    decoder reads JSON text as [json.Unmarshal] does (white space between
    tokens, the escapes of string literals, coercion of byte sequences that
    are not UTF-8 to U+FFFD).  An integer literal is read as its value; a
    literal with a fraction or an exponent is kept as its text, and no field
    of the types decoded here takes one.  The texts of the library's own
    error messages are not modelled, one message stands for each class. *)

Module json.

#[warnings="-register-all"]
Inductive value : Type :=
| Null
| Bool (b : bool)
| Number (z : Z)
| Float (literal : string)
| Str (s : string)
| Array (elems : list value)
| Object (members : list (string * value)).

(** *** Encoding *)

Definition hexDigit (z : Z) : ascii :=
  if z <? 10 then byteOf (48 + z) else byteOf (87 + z).

(** [htmlSafeSet]: the ASCII bytes written as they are. *)
Definition htmlSafe (b : Z) : bool :=
  (0x20 <=? b) && negb (b =? 0x22) && negb (b =? 0x5C)
  && negb (b =? 0x3C) && negb (b =? 0x3E) && negb (b =? 0x26).

(** The text for one byte below [utf8.RuneSelf].  Releases of Go before
    the short escapes for backspace and form feed write these two bytes with
    four hexadecimal digits; both forms are read back as the byte. *)
Definition escapeByte (c : ascii) : string :=
  let b := byteVal c in
  if htmlSafe b then String c EmptyString
  else if (b =? 0x5C) || (b =? 0x22) then String backslash (String c EmptyString)
  else if b =? 0x08 then "\b"
  else if b =? 0x0C then "\f"
  else if b =? 0x0A then "\n"
  else if b =? 0x0D then "\r"
  else if b =? 0x09 then "\t"
  else "\u00" +:+ String (hexDigit (b / 16)) (String (hexDigit (b mod 16)) EmptyString).

(** The loop of [appendString] with [escapeHTML] set, one rune a turn. *)
Fixpoint appendStringLoop (fuel : nat) (src : string) : string :=
  match fuel with
  | O => EmptyString
  | S fuel =>
    match src with
    | EmptyString => EmptyString
    | String c rest =>
      if byteVal c <? utf8.RuneSelf then escapeByte c +:+ appendStringLoop fuel rest
      else
        let '(r, size) := utf8.DecodeRuneInString src in
        if (r =? utf8.RuneError) && (size =? 1)%nat then
          "\u" +:+ "fffd" +:+ appendStringLoop fuel rest
        else if (r =? 0x2028) || (r =? 0x2029) then
          "\u202" +:+ String (hexDigit (r mod 16)) (appendStringLoop fuel (dropS size src))
        else takeS size src +:+ appendStringLoop fuel (dropS size src)
    end
  end.

Definition appendString (src : string) : string :=
  String dquote (appendStringLoop (String.length src) src +:+ String dquote EmptyString).

(** [strconv.AppendInt] in base 10. *)
Fixpoint formatDigits (fuel : nat) (n : Z) (acc : string) : string :=
  match fuel with
  | O => acc
  | S fuel =>
    let acc' := String (byteOf (48 + n mod 10)) acc in
    if n <? 10 then acc' else formatDigits fuel (n / 10) acc'
  end.

Definition formatNat (n : Z) : string :=
  formatDigits (S (Z.to_nat (Z.log2 n))) n EmptyString.

Definition formatInt (z : Z) : string :=
  if z <? 0 then String "-"%char (formatNat (- z)) else formatNat z.

(** The elements of an array after the first, and its closing bracket; the
    members of an object after the first, and its closing brace. *)
Section Compound.
Variable enc : value -> string.

Fixpoint encodeElems (l : list value) : string :=
  match l with
  | [] => "]"
  | x :: l' => "," +:+ enc x +:+ encodeElems l'
  end.

Definition encodeMember (kv : string * value) : string :=
  appendString (fst kv) +:+ ":" +:+ enc (snd kv).

Fixpoint encodeMembers (l : list (string * value)) : string :=
  match l with
  | [] => "}"
  | kv :: l' => "," +:+ encodeMember kv +:+ encodeMembers l'
  end.
End Compound.

Fixpoint encode (v : value) : string :=
  match v with
  | Null => "null"
  | Bool true => "true"
  | Bool false => "false"
  | Number z => formatInt z
  | Float literal => literal
  | Str s => appendString s
  | Array elems =>
    match elems with
    | [] => "[]"
    | x :: l => "[" +:+ encode x +:+ encodeElems encode l
    end
  | Object members =>
    match members with
    | [] => "{}"
    | kv :: l => "{" +:+ encodeMember encode kv +:+ encodeMembers encode l
    end
  end.

(** The values whose strings are UTF-8 and whose numbers are integers: the
    valid Go strings and the Go integers are written without loss. *)
Fixpoint wf (v : value) : bool :=
  match v with
  | Float _ => false
  | Str s => utf8.ValidString s
  | Array elems => forallb wf elems
  | Object members =>
    forallb (fun kv => utf8.ValidString (fst kv) && wf (snd kv)) members
  | _ => true
  end.

Fixpoint size (v : value) : nat :=
  match v with
  | Array elems => S (list_sum (map (fun x => S (size x)) elems))
  | Object members => S (list_sum (map (fun kv => S (size (snd kv))) members))
  | _ => 1%nat
  end.

(** *** Decoding *)

(** [isSpace] of the scanner. *)
Definition isSpace (c : ascii) : bool :=
  let b := byteVal c in (b =? 0x20) || (b =? 0x09) || (b =? 0x0D) || (b =? 0x0A).

Fixpoint skipSpace (s : string) : string :=
  match s with
  | String c r => if isSpace c then skipSpace r else s
  | EmptyString => EmptyString
  end.

Fixpoint stripPrefix (p s : string) : option string :=
  match p, s with
  | EmptyString, _ => Some s
  | String a p', String b s' => if Ascii.eqb a b then stripPrefix p' s' else None
  | String _ _, EmptyString => None
  end.

Definition hexVal (c : ascii) : option Z :=
  let b := byteVal c in
  if (48 <=? b) && (b <=? 57) then Some (b - 48)
  else if (97 <=? b) && (b <=? 102) then Some (b - 87)
  else if (65 <=? b) && (b <=? 70) then Some (b - 55)
  else None.

(** [getu4] on the text after a backslash and a [u]: the value of four
    hexadecimal digits, and the text after them. *)
Definition getu4 (s : string) : option (Z * string) :=
  match s with
  | String h3 (String h2 (String h1 (String h0 r))) =>
    d3 ← hexVal h3; d2 ← hexVal h2; d1 ← hexVal h1; d0 ← hexVal h0;
    Some (d3 * 4096 + d2 * 256 + d1 * 16 + d0, r)
  | _ => None
  end.

Definition isSurrogate (r : Z) : bool := (0xD800 <=? r) && (r <? 0xE000).

(** [utf16.DecodeRune]. *)
Definition utf16DecodeRune (r1 r2 : Z) : Z :=
  if (0xD800 <=? r1) && (r1 <? 0xDC00) && (0xDC00 <=? r2) && (r2 <? 0xE000)
  then (r1 - 0xD800) * 1024 + (r2 - 0xDC00) + 0x10000
  else utf8.RuneError.

(** The byte an escape of one letter stands for. *)
Definition simpleEscape (e : ascii) : option ascii :=
  let b := byteVal e in
  if (b =? 0x22) || (b =? 0x5C) || (b =? 0x2F) then Some e
  else if b =? 0x62 then Some (byteOf 0x08)
  else if b =? 0x66 then Some (byteOf 0x0C)
  else if b =? 0x6E then Some (byteOf 0x0A)
  else if b =? 0x72 then Some (byteOf 0x0D)
  else if b =? 0x74 then Some (byteOf 0x09)
  else None.

(** The second half of a surrogate pair written as a second escape. *)
Definition lowSurrogate (s : string) : option (Z * string) :=
  match s with
  | String c (String u r) =>
    if Ascii.eqb c backslash && Ascii.eqb u "u"%char then getu4 r else None
  | _ => None
  end.

(** A string literal from the text after its opening quote: the bytes it
    denotes ([unquote]) and the text after its closing quote. *)
Fixpoint unquoteLoop (fuel : nat) (s : string) : option (string * string) :=
  match fuel with
  | O => None
  | S fuel =>
    match s with
    | EmptyString => None
    | String c r =>
      let b := byteVal c in
      if b =? 0x22 then Some (EmptyString, r)
      else if b =? 0x5C then
        match r with
        | EmptyString => None
        | String e r' =>
          if Ascii.eqb e "u"%char then
            '(rr, r'') ← getu4 r';
            let '(rr, r'') :=
              if isSurrogate rr then
                match lowSurrogate r'' with
                | Some (rr1, r3) =>
                  let dec := utf16DecodeRune rr rr1 in
                  if dec =? utf8.RuneError then (utf8.RuneError, r'') else (dec, r3)
                | None => (utf8.RuneError, r'')
                end
              else (rr, r'') in
            '(t, rest) ← unquoteLoop fuel r'';
            Some (utf8.EncodeRune rr +:+ t, rest)
          else
            c' ← simpleEscape e;
            '(t, rest) ← unquoteLoop fuel r';
            Some (String c' t, rest)
        end
      else if b <? 0x20 then None
      else if b <? utf8.RuneSelf then
        '(t, rest) ← unquoteLoop fuel r;
        Some (String c t, rest)
      else
        let '(rr, size) := utf8.DecodeRuneInString s in
        '(t, rest) ← unquoteLoop fuel (dropS size s);
        Some (utf8.EncodeRune rr +:+ t, rest)
    end
  end.

Definition unquote (s : string) : option (string * string) :=
  unquoteLoop (S (String.length s)) s.

Definition isDigit (c : ascii) : bool :=
  (48 <=? byteVal c) && (byteVal c <=? 57).

Fixpoint lexDigits (s : string) (acc : Z) : Z * string :=
  match s with
  | String c r =>
    if isDigit c then lexDigits r (acc * 10 + (byteVal c - 48)) else (acc, s)
  | EmptyString => (acc, EmptyString)
  end.

(** The characters that would continue a number into a fraction or an
    exponent. *)
Definition continuesNumber (s : string) : bool :=
  match s with
  | String c _ => Ascii.eqb c "."%char || Ascii.eqb c "e"%char || Ascii.eqb c "E"%char
  | EmptyString => false
  end.

(** The integer part of a number: [0], or digits that do not start with
    [0]. *)
Definition lexNat (s : string) : option (Z * string) :=
  match s with
  | String c r =>
    if Ascii.eqb c "0"%char then Some (0, r)
    else if isDigit c then Some (lexDigits s 0)
    else None
  | EmptyString => None
  end.

Definition lexInt (s : string) : option (Z * string) :=
  match s with
  | String c r =>
    if Ascii.eqb c "-"%char then '(n, rest) ← lexNat r; Some (- n, rest)
    else lexNat s
  | EmptyString => None
  end.

(** One digit or more; the text after them. *)
Definition lexDigits1 (s : string) : option string :=
  match s with
  | String c r => if isDigit c then Some (snd (lexDigits r 0)) else None
  | EmptyString => None
  end.

Definition lexFraction (s : string) : option string :=
  match s with
  | String c r => if Ascii.eqb c "."%char then lexDigits1 r else Some s
  | EmptyString => Some s
  end.

Definition lexExponent (s : string) : option string :=
  match s with
  | String c r =>
    if Ascii.eqb c "e"%char || Ascii.eqb c "E"%char then
      match r with
      | String sign r' =>
        if Ascii.eqb sign "+"%char || Ascii.eqb sign "-"%char then lexDigits1 r'
        else lexDigits1 r
      | EmptyString => None
      end
    else Some s
  | EmptyString => Some s
  end.

(** A number literal: an integer, or the text of a literal that goes on
    with a fraction or an exponent. *)
Definition lexNumber (s : string) : option (value * string) :=
  '(z, rest) ← lexInt s;
  if continuesNumber rest then
    r1 ← lexFraction rest;
    r2 ← lexExponent r1;
    Some (Float (takeS (String.length s - String.length r2) s), r2)
  else Some (Number z, rest).

(** A value, the elements of an array after its first bracket and the
    members of an object after its brace; with the text that follows. *)
Fixpoint parseValue (fuel : nat) (s : string) : option (value * string) :=
  match fuel with
  | O => None
  | S fuel =>
    match skipSpace s with
    | EmptyString => None
    | String c r =>
      if Ascii.eqb c "n"%char then r' ← stripPrefix "ull" r; Some (Null, r')
      else if Ascii.eqb c "t"%char then r' ← stripPrefix "rue" r; Some (Bool true, r')
      else if Ascii.eqb c "f"%char then r' ← stripPrefix "alse" r; Some (Bool false, r')
      else if Ascii.eqb c dquote then
        '(str, r') ← unquote r; Some (Str str, r')
      else if Ascii.eqb c "["%char then
        match skipSpace r with
        | String c' r' =>
          if Ascii.eqb c' "]"%char then Some (Array [], r')
          else '(l, r'') ← parseElems fuel r; Some (Array l, r'')
        | EmptyString => None
        end
      else if Ascii.eqb c "{"%char then
        match skipSpace r with
        | String c' r' =>
          if Ascii.eqb c' "}"%char then Some (Object [], r')
          else '(l, r'') ← parseMembers fuel r; Some (Object l, r'')
        | EmptyString => None
        end
      else lexNumber (String c r)
    end
  end
with parseElems (fuel : nat) (s : string) : option (list value * string) :=
  match fuel with
  | O => None
  | S fuel =>
    '(v, r) ← parseValue fuel s;
    match skipSpace r with
    | String c r' =>
      if Ascii.eqb c ","%char then '(l, r'') ← parseElems fuel r'; Some (v :: l, r'')
      else if Ascii.eqb c "]"%char then Some ([v], r')
      else None
    | EmptyString => None
    end
  end
with parseMembers (fuel : nat) (s : string) : option (list (string * value) * string) :=
  match fuel with
  | O => None
  | S fuel =>
    match skipSpace s with
    | String q r0 =>
      if Ascii.eqb q dquote then
        '(k, r1) ← unquote r0;
        match skipSpace r1 with
        | String colon r2 =>
          if Ascii.eqb colon ":"%char then
            '(v, r) ← parseValue fuel r2;
            match skipSpace r with
            | String c r' =>
              if Ascii.eqb c ","%char then
                '(l, r'') ← parseMembers fuel r'; Some ((k, v) :: l, r'')
              else if Ascii.eqb c "}"%char then Some ([(k, v)], r')
              else None
            | EmptyString => None
            end
          else None
        | EmptyString => None
        end
      else None
    | EmptyString => None
    end
  end.

(** The text after a number does not go on with a digit, a fraction or an
    exponent. *)
Definition endsNumber (t : string) : bool :=
  match t with
  | EmptyString => true
  | String c _ => negb (isDigit c) && negb (continuesNumber t)
  end.

(** The text after a value inside an array or an object, or the end. *)
Definition delimited (t : string) : bool :=
  match t with
  | EmptyString => true
  | String c _ => Ascii.eqb c ","%char || Ascii.eqb c "]"%char || Ascii.eqb c "}"%char
  end.

(** The whole text is one value, with white space around it at most. *)
Definition decode (s : string) : option value :=
  '(v, r) ← parseValue (S (String.length s)) s;
  match skipSpace r with
  | EmptyString => Some v
  | String _ _ => None
  end.

End json.

(** A Go type as [encoding/json] sees it: its zero value, its encoding, and
    decoding a JSON value into a variable of the type that holds [a]. *)
Class GoJSON (A : Type) : Type := {
  zeroValue : A;
  toJSON : A -> json.value;
  decodeInto : json.value -> A -> result A
}.

(** A Go [map[string]string]: [None] is the nil map. *)
Abbreviation stringMap := (option (gmap string string)).

(** [m[k]] with the comma-ok form: reading a nil map finds nothing. *)
Definition mapIndex (m : stringMap) (k : string) : option string :=
  m ≫= (fun m => m !! k).

(** ** [k8s.io/apimachinery]: the fields this package sets *)

Inductive IntOrString : Type :=
| FromInt (i : Z)
| FromString (s : string).

Record TypeMeta : Type := {
  TypeMeta_Kind : string;
  TypeMeta_APIVersion : string
}.

Record OwnerReference : Type := {
  OwnerReference_APIVersion : string;
  OwnerReference_Kind : string;
  OwnerReference_Name : string;
  OwnerReference_UID : string;
  OwnerReference_Controller : option bool;
  OwnerReference_BlockOwnerDeletion : option bool
}.

Record ObjectMeta : Type := {
  ObjectMeta_Name : string;
  ObjectMeta_Namespace : string;
  ObjectMeta_UID : string;
  ObjectMeta_Labels : stringMap;
  ObjectMeta_Annotations : stringMap;
  ObjectMeta_OwnerReferences : list OwnerReference
}.

Definition ObjectMeta_zero : ObjectMeta :=
  {| ObjectMeta_Name := ""; ObjectMeta_Namespace := ""; ObjectMeta_UID := "";
     ObjectMeta_Labels := None; ObjectMeta_Annotations := None;
     ObjectMeta_OwnerReferences := [] |}.

Definition ObjectMeta_setAnnotations (o : ObjectMeta) (a : stringMap) : ObjectMeta :=
  {| ObjectMeta_Name := ObjectMeta_Name o;
     ObjectMeta_Namespace := ObjectMeta_Namespace o;
     ObjectMeta_UID := ObjectMeta_UID o;
     ObjectMeta_Labels := ObjectMeta_Labels o;
     ObjectMeta_Annotations := a;
     ObjectMeta_OwnerReferences := ObjectMeta_OwnerReferences o |}.

Record LabelSelector : Type := {
  LabelSelector_MatchLabels : stringMap
}.

Record GroupVersionKind : Type := {
  GroupVersionKind_Group : string;
  GroupVersionKind_Version : string;
  GroupVersionKind_Kind : string
}.

(** [schema.GroupVersion.String]: the version alone for the empty group. *)
Definition GroupVersion_String (group version : string) : string :=
  if negb (String.eqb group "") then group +:+ "/" +:+ version else version.

(** [metav1.NewControllerRef], on the name and UID of the owner; it returns
    a reference for every owner, it has no error result. *)
Definition NewControllerRef (owner : ObjectMeta) (gvk : GroupVersionKind) : OwnerReference :=
  {| OwnerReference_APIVersion :=
       GroupVersion_String (GroupVersionKind_Group gvk) (GroupVersionKind_Version gvk);
     OwnerReference_Kind := GroupVersionKind_Kind gvk;
     OwnerReference_Name := ObjectMeta_Name owner;
     OwnerReference_UID := ObjectMeta_UID owner;
     OwnerReference_Controller := Some true;
     OwnerReference_BlockOwnerDeletion := Some true |}.

(** ** [k8s.io/api/core/v1] and [apps/v1]: the fields this package sets *)

Definition ProtocolTCP : string := "TCP".
Definition URISchemeHTTP : string := "HTTP".
Definition URISchemeHTTPS : string := "HTTPS".
Definition ServiceTypeClusterIP : string := "ClusterIP".

Record ContainerPort : Type := {
  ContainerPort_Name : string;
  ContainerPort_ContainerPort : Z;
  ContainerPort_Protocol : string
}.

Record HTTPGetAction : Type := {
  HTTPGetAction_Path : string;
  HTTPGetAction_Port : IntOrString;
  HTTPGetAction_Scheme : string
}.

Record Handler : Type := { Handler_HTTPGet : option HTTPGetAction }.

Record Probe : Type := { Probe_Handler : Handler }.

Record VolumeMount : Type := {
  VolumeMount_Name : string;
  VolumeMount_MountPath : string
}.

Record LocalObjectReference : Type := { LocalObjectReference_Name : string }.

Record ConfigMapVolumeSource : Type := {
  ConfigMapVolumeSource_LocalObjectReference : LocalObjectReference
}.

Record ObjectFieldSelector : Type := { ObjectFieldSelector_FieldPath : string }.

Record DownwardAPIVolumeFile : Type := {
  DownwardAPIVolumeFile_Path : string;
  DownwardAPIVolumeFile_FieldRef : option ObjectFieldSelector
}.

Record DownwardAPIVolumeSource : Type := {
  DownwardAPIVolumeSource_Items : list DownwardAPIVolumeFile
}.

Record KeyToPath : Type := { KeyToPath_Key : string; KeyToPath_Path : string }.

Record SecretVolumeSource : Type := {
  SecretVolumeSource_SecretName : string;
  SecretVolumeSource_Items : list KeyToPath
}.

Record VolumeSource : Type := {
  VolumeSource_ConfigMap : option ConfigMapVolumeSource;
  VolumeSource_DownwardAPI : option DownwardAPIVolumeSource;
  VolumeSource_Secret : option SecretVolumeSource
}.

Record Volume : Type := {
  Volume_Name : string;
  Volume_VolumeSource : VolumeSource
}.

Record ServicePort : Type := {
  ServicePort_Name : string;
  ServicePort_Protocol : string;
  ServicePort_TargetPort : IntOrString;
  ServicePort_Port : Z
}.

Record ServiceSpec : Type := {
  ServiceSpec_Ports : list ServicePort;
  ServiceSpec_Selector : stringMap;
  ServiceSpec_Type : string
}.

Record Service : Type := {
  Service_TypeMeta : TypeMeta;
  Service_ObjectMeta : ObjectMeta;
  Service_Spec : ServiceSpec
}.

(** [service.Spec.Ports = ports] *)
Definition Service_setPorts (s : Service) (ports : list ServicePort) : Service :=
  {| Service_TypeMeta := Service_TypeMeta s;
     Service_ObjectMeta := Service_ObjectMeta s;
     Service_Spec :=
       {| ServiceSpec_Ports := ports;
          ServiceSpec_Selector := ServiceSpec_Selector (Service_Spec s);
          ServiceSpec_Type := ServiceSpec_Type (Service_Spec s) |} |}.

(** ** [pkg/apis/nginx/v1alpha1] *)

(** Modelled from the spec: the declarations of package [v1alpha1] (the
    types [NginxSpec], [NginxPodTemplateSpec], [ConfigRef], [TLSSecret] and
    [Nginx] with their json tags, and [SchemeGroupVersion]) are not among the
    sources.  The fields are those [k8s.go] selects; section 3 of the spec
    gives their types and says which are optional. *)
Record ConfigRef : Type := {
  ConfigRef_Name : string;
  ConfigRef_Kind : string;
  ConfigRef_Value : string
}.

(** Modelled from the spec: [TLSSecret], declared in the missing package
    [v1alpha1]; the five fields that [setupTLS] reads and writes. *)
Record TLSSecret : Type := {
  TLSSecret_SecretName : string;
  TLSSecret_KeyField : string;
  TLSSecret_CertificateField : string;
  TLSSecret_KeyPath : string;
  TLSSecret_CertificatePath : string
}.

(** Modelled from the spec: [SchemeGroupVersion] is declared in the same
    missing package; group and version are those of the resource string
    ["nginx.tsuru.io/v1alpha1"] that [main] watches. *)
Definition SchemeGroupVersion_Group : string := "nginx.tsuru.io".
(** Modelled from the spec: the version of [SchemeGroupVersion], as the
    group above. *)
Definition SchemeGroupVersion_Version : string := "v1alpha1".

(** ** [pkg/stub/k8s]: constants *)

Definition defaultNginxImage : string := "nginx:latest".
Definition defaultHTTPPortName : string := "http".
Definition defaultHTTPSPortName : string := "https".
Definition configMountPath : string := "/etc/nginx".
Definition certMountPath : string := configMountPath +:+ "/certs".
Definition generatedFromAnnotation : string := "nginx.tsuru.io/generated-from".

Definition valueOrDefault (value def : string) : string :=
  if negb (String.eqb value "") then value else def.

Definition LabelsForNginx (name : string) : stringMap :=
  Some (<["nginx_cr" := name]> (<["app" := "nginx"]> ∅)).

(** ** Decoding into Go values *)

#[export] Instance result_ret : MRet result := fun A a => Ok a.
#[export] Instance result_bind : MBind result :=
  fun A B f m => match m with Ok a => f a | Err e => Err e end.

(** One message for each class of error of the library. *)
Definition SyntaxError : error := "json: syntax error in input".
Definition UnmarshalTypeError : error := "json: cannot unmarshal value into Go value".

Definition lowerByte (c : ascii) : ascii :=
  let b := byteVal c in
  if (65 <=? b) && (b <=? 90) then byteOf (b + 32) else c.

Fixpoint lower (s : string) : string :=
  match s with
  | EmptyString => EmptyString
  | String c r => String (lowerByte c) (lower r)
  end.

(** The two letters outside ASCII that fold to ASCII ones: U+017F, the long
    s (bytes C5 BF), folds to [s], and U+212A, the Kelvin sign (bytes E2 84
    AA), to [k]. *)
Fixpoint foldSpecial (s : string) : string :=
  match s with
  | String "197" (String "191" r) => String "s" (foldSpecial r)
  | String "226" (String "132" (String "170" r)) => String "k" (foldSpecial r)
  | String c r => String c (foldSpecial r)
  | EmptyString => EmptyString
  end.

(** A key names a field when the two are equal up to the case of ASCII
    letters, the long s of a key standing for an [s] and its Kelvin sign for
    a [k]; the names of the fields are ASCII. *)
Definition equalFold (name key : string) : bool :=
  String.eqb (lower name) (lower (foldSpecial key)).

(** The members of an object, in order, each decoded into the struct. *)
Fixpoint decodeMembers {A} (field : string -> json.value -> A -> result A)
    (ms : list (string * json.value)) (a : A) : result A :=
  match ms with
  | [] => Ok a
  | (k, v) :: ms' => a' ← field k v a; decodeMembers field ms' a'
  end.

(** A struct: [null] leaves it as it is, an object sets its fields. *)
Definition decodeStruct {A} (field : string -> json.value -> A -> result A)
    (v : json.value) (a : A) : result A :=
  match v with
  | json.Null => Ok a
  | json.Object ms => decodeMembers field ms a
  | _ => Err UnmarshalTypeError
  end.

Definition decodeString (v : json.value) (cur : string) : result string :=
  match v with
  | json.Null => Ok cur
  | json.Str s => Ok s
  | _ => Err UnmarshalTypeError
  end.

Definition inInt32 (z : Z) : bool := (- 2147483648 <=? z) && (z <=? 2147483647).

Definition decodeInt32Ptr (v : json.value) (cur : option Z) : result (option Z) :=
  match v with
  | json.Null => Ok None
  | json.Number z => if inInt32 z then Ok (Some z) else Err UnmarshalTypeError
  | _ => Err UnmarshalTypeError
  end.

(** A pointer: [null] sets it to nil, another value is decoded into what it
    points to, a new zero value when it is nil. *)
Definition decodePtr {A} `{GoJSON A} (v : json.value) (cur : option A) : result (option A) :=
  match v with
  | json.Null => Ok None
  | _ => a ← decodeInto v (default zeroValue cur); Ok (Some a)
  end.

(** A field tagged [omitempty]. *)
Definition omitEmptyString (k s : string) : list (string * json.value) :=
  if String.eqb s "" then [] else [(k, json.Str s)].

Definition omitNil {A} (k : string) (f : A -> json.value) (p : option A)
  : list (string * json.value) :=
  match p with
  | None => []
  | Some a => [(k, f a)]
  end.

(** [json.Marshal] and [json.Unmarshal]. *)
Definition Marshal {A} `{GoJSON A} (a : A) : result string :=
  Ok (json.encode (toJSON a)).

Definition Unmarshal {A} `{GoJSON A} (data : string) (a : A) : result A :=
  match json.decode data with
  | None => Err SyntaxError
  | Some v => decodeInto v a
  end.

(** Modelled from the spec: the json tags of [ConfigRef] and [TLSSecret] are
    declared in the missing package [v1alpha1]; the keys are the names the
    spec's scenarios write ([kind], [name], [value], [secretName]) and, for
    the other fields, the field name with a lower-case initial; the fields
    with a default are omitted when empty. *)
Definition ConfigRef_toJSON (c : ConfigRef) : json.value :=
  json.Object ([("kind", json.Str (ConfigRef_Kind c));
                ("name", json.Str (ConfigRef_Name c))]
               ++ omitEmptyString "value" (ConfigRef_Value c)).

(** Modelled from the spec: the keys of [ConfigRef], as in its encoding. *)
Definition ConfigRef_field (k : string) (v : json.value) (c : ConfigRef) : result ConfigRef :=
  if equalFold "kind" k then
    s ← decodeString v (ConfigRef_Kind c);
    Ok {| ConfigRef_Name := ConfigRef_Name c; ConfigRef_Kind := s;
          ConfigRef_Value := ConfigRef_Value c |}
  else if equalFold "name" k then
    s ← decodeString v (ConfigRef_Name c);
    Ok {| ConfigRef_Name := s; ConfigRef_Kind := ConfigRef_Kind c;
          ConfigRef_Value := ConfigRef_Value c |}
  else if equalFold "value" k then
    s ← decodeString v (ConfigRef_Value c);
    Ok {| ConfigRef_Name := ConfigRef_Name c; ConfigRef_Kind := ConfigRef_Kind c;
          ConfigRef_Value := s |}
  else Ok c.

#[export] Instance ConfigRef_json : GoJSON ConfigRef := {
  zeroValue := {| ConfigRef_Name := ""; ConfigRef_Kind := ""; ConfigRef_Value := "" |};
  toJSON := ConfigRef_toJSON;
  decodeInto := decodeStruct ConfigRef_field
}.

(** Modelled from the spec: the json tags of [TLSSecret], see above. *)
Definition TLSSecret_toJSON (t : TLSSecret) : json.value :=
  json.Object ([("secretName", json.Str (TLSSecret_SecretName t))]
               ++ omitEmptyString "keyField" (TLSSecret_KeyField t)
               ++ omitEmptyString "certificateField" (TLSSecret_CertificateField t)
               ++ omitEmptyString "keyPath" (TLSSecret_KeyPath t)
               ++ omitEmptyString "certificatePath" (TLSSecret_CertificatePath t)).

(** Modelled from the spec: the keys of [TLSSecret], as in its encoding. *)
Definition TLSSecret_field (k : string) (v : json.value) (t : TLSSecret) : result TLSSecret :=
  if equalFold "secretName" k then
    s ← decodeString v (TLSSecret_SecretName t);
    Ok {| TLSSecret_SecretName := s;
          TLSSecret_KeyField := TLSSecret_KeyField t;
          TLSSecret_CertificateField := TLSSecret_CertificateField t;
          TLSSecret_KeyPath := TLSSecret_KeyPath t;
          TLSSecret_CertificatePath := TLSSecret_CertificatePath t |}
  else if equalFold "keyField" k then
    s ← decodeString v (TLSSecret_KeyField t);
    Ok {| TLSSecret_SecretName := TLSSecret_SecretName t;
          TLSSecret_KeyField := s;
          TLSSecret_CertificateField := TLSSecret_CertificateField t;
          TLSSecret_KeyPath := TLSSecret_KeyPath t;
          TLSSecret_CertificatePath := TLSSecret_CertificatePath t |}
  else if equalFold "certificateField" k then
    s ← decodeString v (TLSSecret_CertificateField t);
    Ok {| TLSSecret_SecretName := TLSSecret_SecretName t;
          TLSSecret_KeyField := TLSSecret_KeyField t;
          TLSSecret_CertificateField := s;
          TLSSecret_KeyPath := TLSSecret_KeyPath t;
          TLSSecret_CertificatePath := TLSSecret_CertificatePath t |}
  else if equalFold "keyPath" k then
    s ← decodeString v (TLSSecret_KeyPath t);
    Ok {| TLSSecret_SecretName := TLSSecret_SecretName t;
          TLSSecret_KeyField := TLSSecret_KeyField t;
          TLSSecret_CertificateField := TLSSecret_CertificateField t;
          TLSSecret_KeyPath := s;
          TLSSecret_CertificatePath := TLSSecret_CertificatePath t |}
  else if equalFold "certificatePath" k then
    s ← decodeString v (TLSSecret_CertificatePath t);
    Ok {| TLSSecret_SecretName := TLSSecret_SecretName t;
          TLSSecret_KeyField := TLSSecret_KeyField t;
          TLSSecret_CertificateField := TLSSecret_CertificateField t;
          TLSSecret_KeyPath := TLSSecret_KeyPath t;
          TLSSecret_CertificatePath := s |}
  else Ok t.

#[export] Instance TLSSecret_json : GoJSON TLSSecret := {
  zeroValue := {| TLSSecret_SecretName := ""; TLSSecret_KeyField := "";
                  TLSSecret_CertificateField := ""; TLSSecret_KeyPath := "";
                  TLSSecret_CertificatePath := "" |};
  toJSON := TLSSecret_toJSON;
  decodeInto := decodeStruct TLSSecret_field
}.

Section Operator.

(** [corev1.ResourceRequirements] and [corev1.Affinity]: structured data that
    this package copies from the resource into the pod and never reads. *)
Context {ResourceRequirements Affinity : Type}.
Context `{!GoJSON ResourceRequirements, !GoJSON Affinity}.

(** [v1alpha1.ConfigKindConfigMap] and [v1alpha1.ConfigKindInline], two
    constants of the string type [ConfigKind] declared in the missing
    package. *)
Variables ConfigKindConfigMap ConfigKindInline : string.

Record Container : Type := {
  Container_Name : string;
  Container_Image : string;
  Container_Ports : list ContainerPort;
  Container_Resources : ResourceRequirements;
  Container_ReadinessProbe : option Probe;
  Container_VolumeMounts : list VolumeMount
}.

Record PodSpec : Type := {
  PodSpec_Containers : list Container;
  PodSpec_Volumes : list Volume;
  PodSpec_Affinity : option Affinity
}.

Record PodTemplateSpec : Type := {
  PodTemplateSpec_ObjectMeta : ObjectMeta;
  PodTemplateSpec_Spec : PodSpec
}.

Record DeploymentSpec : Type := {
  DeploymentSpec_Replicas : option Z;
  DeploymentSpec_Selector : option LabelSelector;
  DeploymentSpec_Template : PodTemplateSpec
}.

Record Deployment : Type := {
  Deployment_TypeMeta : TypeMeta;
  Deployment_ObjectMeta : ObjectMeta;
  Deployment_Spec : DeploymentSpec
}.

(** Modelled from the spec: [NginxPodTemplateSpec], declared in the missing
    package [v1alpha1]; the two overrides that [NewDeployment] copies. *)
Record NginxPodTemplateSpec : Type := {
  NginxPodTemplateSpec_Affinity : option Affinity;
  NginxPodTemplateSpec_Resources : ResourceRequirements
}.

(** Modelled from the spec: [NginxSpec], declared in the missing package;
    the fields that [NewDeployment] and [NewService] select. *)
Record NginxSpec : Type := {
  NginxSpec_Replicas : option Z;
  NginxSpec_Image : string;
  NginxSpec_Config : option ConfigRef;
  NginxSpec_TLSSecret : option TLSSecret;
  NginxSpec_PodTemplate : NginxPodTemplateSpec
}.

(** Modelled from the spec: [Nginx], declared in the missing package; the
    resource with its identity (name, namespace, UID) and its spec. *)
Record Nginx : Type := {
  Nginx_TypeMeta : TypeMeta;
  Nginx_ObjectMeta : ObjectMeta;
  Nginx_Spec : NginxSpec
}.

(** *** Assignments to fields *)

Definition NginxSpec_setImage (s : NginxSpec) (image : string) : NginxSpec :=
  {| NginxSpec_Replicas := NginxSpec_Replicas s;
     NginxSpec_Image := image;
     NginxSpec_Config := NginxSpec_Config s;
     NginxSpec_TLSSecret := NginxSpec_TLSSecret s;
     NginxSpec_PodTemplate := NginxSpec_PodTemplate s |}.

Definition NginxSpec_setReplicas (s : NginxSpec) (r : option Z) : NginxSpec :=
  {| NginxSpec_Replicas := r;
     NginxSpec_Image := NginxSpec_Image s;
     NginxSpec_Config := NginxSpec_Config s;
     NginxSpec_TLSSecret := NginxSpec_TLSSecret s;
     NginxSpec_PodTemplate := NginxSpec_PodTemplate s |}.

Definition NginxSpec_setConfig (s : NginxSpec) (c : option ConfigRef) : NginxSpec :=
  {| NginxSpec_Replicas := NginxSpec_Replicas s;
     NginxSpec_Image := NginxSpec_Image s;
     NginxSpec_Config := c;
     NginxSpec_TLSSecret := NginxSpec_TLSSecret s;
     NginxSpec_PodTemplate := NginxSpec_PodTemplate s |}.

Definition NginxSpec_setTLSSecret (s : NginxSpec) (t : option TLSSecret) : NginxSpec :=
  {| NginxSpec_Replicas := NginxSpec_Replicas s;
     NginxSpec_Image := NginxSpec_Image s;
     NginxSpec_Config := NginxSpec_Config s;
     NginxSpec_TLSSecret := t;
     NginxSpec_PodTemplate := NginxSpec_PodTemplate s |}.

Definition NginxSpec_setPodTemplate (s : NginxSpec) (p : NginxPodTemplateSpec) : NginxSpec :=
  {| NginxSpec_Replicas := NginxSpec_Replicas s;
     NginxSpec_Image := NginxSpec_Image s;
     NginxSpec_Config := NginxSpec_Config s;
     NginxSpec_TLSSecret := NginxSpec_TLSSecret s;
     NginxSpec_PodTemplate := p |}.

Definition Nginx_setSpec (n : Nginx) (s : NginxSpec) : Nginx :=
  {| Nginx_TypeMeta := Nginx_TypeMeta n;
     Nginx_ObjectMeta := Nginx_ObjectMeta n;
     Nginx_Spec := s |}.

Definition Container_setPorts (c : Container) (ports : list ContainerPort) : Container :=
  {| Container_Name := Container_Name c;
     Container_Image := Container_Image c;
     Container_Ports := ports;
     Container_Resources := Container_Resources c;
     Container_ReadinessProbe := Container_ReadinessProbe c;
     Container_VolumeMounts := Container_VolumeMounts c |}.

Definition Container_setReadinessProbe (c : Container) (p : option Probe) : Container :=
  {| Container_Name := Container_Name c;
     Container_Image := Container_Image c;
     Container_Ports := Container_Ports c;
     Container_Resources := Container_Resources c;
     Container_ReadinessProbe := p;
     Container_VolumeMounts := Container_VolumeMounts c |}.

Definition Container_setVolumeMounts (c : Container) (m : list VolumeMount) : Container :=
  {| Container_Name := Container_Name c;
     Container_Image := Container_Image c;
     Container_Ports := Container_Ports c;
     Container_Resources := Container_Resources c;
     Container_ReadinessProbe := Container_ReadinessProbe c;
     Container_VolumeMounts := m |}.

Definition Deployment_setObjectMeta (dep : Deployment) (o : ObjectMeta) : Deployment :=
  {| Deployment_TypeMeta := Deployment_TypeMeta dep;
     Deployment_ObjectMeta := o;
     Deployment_Spec := Deployment_Spec dep |}.

(** [dep.Spec.Template = t] *)
Definition Deployment_setTemplate (dep : Deployment) (t : PodTemplateSpec) : Deployment :=
  {| Deployment_TypeMeta := Deployment_TypeMeta dep;
     Deployment_ObjectMeta := Deployment_ObjectMeta dep;
     Deployment_Spec :=
       {| DeploymentSpec_Replicas := DeploymentSpec_Replicas (Deployment_Spec dep);
          DeploymentSpec_Selector := DeploymentSpec_Selector (Deployment_Spec dep);
          DeploymentSpec_Template := t |} |}.

Definition Deployment_Template (dep : Deployment) : PodTemplateSpec :=
  DeploymentSpec_Template (Deployment_Spec dep).

(** [dep.Spec.Template.Spec.Containers] and [dep.Spec.Template.Spec.Volumes] *)
Definition Deployment_Containers (dep : Deployment) : list Container :=
  PodSpec_Containers (PodTemplateSpec_Spec (Deployment_Template dep)).

Definition Deployment_Volumes (dep : Deployment) : list Volume :=
  PodSpec_Volumes (PodTemplateSpec_Spec (Deployment_Template dep)).

Definition Deployment_setContainers (dep : Deployment) (cs : list Container) : Deployment :=
  let t := Deployment_Template dep in
  Deployment_setTemplate dep
    {| PodTemplateSpec_ObjectMeta := PodTemplateSpec_ObjectMeta t;
       PodTemplateSpec_Spec :=
         {| PodSpec_Containers := cs;
            PodSpec_Volumes := PodSpec_Volumes (PodTemplateSpec_Spec t);
            PodSpec_Affinity := PodSpec_Affinity (PodTemplateSpec_Spec t) |} |}.

Definition Deployment_setVolumes (dep : Deployment) (vs : list Volume) : Deployment :=
  let t := Deployment_Template dep in
  Deployment_setTemplate dep
    {| PodTemplateSpec_ObjectMeta := PodTemplateSpec_ObjectMeta t;
       PodTemplateSpec_Spec :=
         {| PodSpec_Containers := PodSpec_Containers (PodTemplateSpec_Spec t);
            PodSpec_Volumes := vs;
            PodSpec_Affinity := PodSpec_Affinity (PodTemplateSpec_Spec t) |} |}.

(** [dep.Spec.Template.Annotations = a] *)
Definition Deployment_setTemplateAnnotations (dep : Deployment) (a : stringMap) : Deployment :=
  let t := Deployment_Template dep in
  Deployment_setTemplate dep
    {| PodTemplateSpec_ObjectMeta :=
         ObjectMeta_setAnnotations (PodTemplateSpec_ObjectMeta t) a;
       PodTemplateSpec_Spec := PodTemplateSpec_Spec t |}.

Definition Deployment_TemplateAnnotations (dep : Deployment) : stringMap :=
  ObjectMeta_Annotations (PodTemplateSpec_ObjectMeta (Deployment_Template dep)).

(** An assignment [dep.Spec.Template.Spec.Containers[0].f = ...]: the index
    expression panics on a deployment without containers, [None] here. *)
Definition assignContainer0 (f : Container -> Container) (dep : Deployment)
  : option Deployment :=
  match Deployment_Containers dep with
  | [] => None
  | c :: cs => Some (Deployment_setContainers dep (f c :: cs))
  end.

(** *** The encoding of the spec *)

(** Modelled from the spec: the json tags of [NginxPodTemplateSpec] and
    [NginxSpec] are declared in the missing package; keys as in the spec's
    scenarios ([image], [replicas], [configRef], [tlsRef]), optional fields
    omitted when empty or nil. *)
Definition NginxPodTemplateSpec_toJSON (p : NginxPodTemplateSpec) : json.value :=
  json.Object (omitNil "affinity" toJSON (NginxPodTemplateSpec_Affinity p)
               ++ [("resources", toJSON (NginxPodTemplateSpec_Resources p))]).

(** Modelled from the spec: the keys of [NginxPodTemplateSpec], as in its
    encoding. *)
Definition NginxPodTemplateSpec_field (k : string) (v : json.value)
    (p : NginxPodTemplateSpec) : result NginxPodTemplateSpec :=
  if equalFold "affinity" k then
    a ← decodePtr v (NginxPodTemplateSpec_Affinity p);
    Ok {| NginxPodTemplateSpec_Affinity := a;
          NginxPodTemplateSpec_Resources := NginxPodTemplateSpec_Resources p |}
  else if equalFold "resources" k then
    r ← decodeInto v (NginxPodTemplateSpec_Resources p);
    Ok {| NginxPodTemplateSpec_Affinity := NginxPodTemplateSpec_Affinity p;
          NginxPodTemplateSpec_Resources := r |}
  else Ok p.

#[export] Instance NginxPodTemplateSpec_json : GoJSON NginxPodTemplateSpec := {
  zeroValue := {| NginxPodTemplateSpec_Affinity := None;
                  NginxPodTemplateSpec_Resources := zeroValue |};
  toJSON := NginxPodTemplateSpec_toJSON;
  decodeInto := decodeStruct NginxPodTemplateSpec_field
}.

(** Modelled from the spec: the json tags of [NginxSpec], see above. *)
Definition NginxSpec_toJSON (s : NginxSpec) : json.value :=
  json.Object (omitEmptyString "image" (NginxSpec_Image s)
               ++ omitNil "replicas" json.Number (NginxSpec_Replicas s)
               ++ [("podTemplate", toJSON (NginxSpec_PodTemplate s))]
               ++ omitNil "configRef" toJSON (NginxSpec_Config s)
               ++ omitNil "tlsRef" toJSON (NginxSpec_TLSSecret s)).

(** Modelled from the spec: the keys of [NginxSpec], as in its encoding. *)
Definition NginxSpec_field (k : string) (v : json.value) (s : NginxSpec)
  : result NginxSpec :=
  if equalFold "image" k then
    i ← decodeString v (NginxSpec_Image s); Ok (NginxSpec_setImage s i)
  else if equalFold "replicas" k then
    r ← decodeInt32Ptr v (NginxSpec_Replicas s); Ok (NginxSpec_setReplicas s r)
  else if equalFold "podTemplate" k then
    p ← decodeInto v (NginxSpec_PodTemplate s); Ok (NginxSpec_setPodTemplate s p)
  else if equalFold "configRef" k then
    c ← decodePtr v (NginxSpec_Config s); Ok (NginxSpec_setConfig s c)
  else if equalFold "tlsRef" k then
    t ← decodePtr v (NginxSpec_TLSSecret s); Ok (NginxSpec_setTLSSecret s t)
  else Ok s.

#[export] Instance NginxSpec_json : GoJSON NginxSpec := {
  zeroValue := {| NginxSpec_Replicas := None; NginxSpec_Image := "";
                  NginxSpec_Config := None; NginxSpec_TLSSecret := None;
                  NginxSpec_PodTemplate := zeroValue |};
  toJSON := NginxSpec_toJSON;
  decodeInto := decodeStruct NginxSpec_field
}.

(** *** [k8s.go] *)

(** [fmt.Errorf] with the verb [%q] on a string of plain characters. *)
Definition quoted (s : string) : string :=
  String dquote (s +:+ String dquote EmptyString).

(** [ExtractNginxSpec] extracts the nginx used to create the object. *)
Definition ExtractNginxSpec (o : ObjectMeta) : result NginxSpec :=
  match mapIndex (ObjectMeta_Annotations o) generatedFromAnnotation with
  | None =>
    Err ("missing " +:+ quoted generatedFromAnnotation +:+ " annotation in deployment")
  | Some ann =>
    match Unmarshal ann (zeroValue : NginxSpec) with
    | Err err => Err ("failed to unmarshal nginx from annotation: " +:+ err)
    | Ok spec => Ok spec
    end
  end.

(** [SetNginxSpec] sets the nginx spec into the object annotation.  The
    object is behind a pointer: the result is the object after the call and
    the error returned, [None] for nil. *)
Definition SetNginxSpec (o : ObjectMeta) (spec : NginxSpec) : ObjectMeta * option error :=
  let o :=
    match ObjectMeta_Annotations o with
    | None => ObjectMeta_setAnnotations o (Some ∅)
    | Some _ => o
    end in
  match Marshal spec with
  | Err err => (o, Some err)
  | Ok origSpec =>
    (* the map is not nil here: the assignment does not panic *)
    (ObjectMeta_setAnnotations o
       (Some (<[generatedFromAnnotation := origSpec]>
                (default ∅ (ObjectMeta_Annotations o)))),
     None)
  end.

Definition appendVolumeMount (m : VolumeMount) (c : Container) : Container :=
  Container_setVolumeMounts c (Container_VolumeMounts c ++ [m]).

Definition appendVolume (v : Volume) (dep : Deployment) : Deployment :=
  Deployment_setVolumes dep (Deployment_Volumes dep ++ [v]).

(** [setupConfig]; [None] is the panic of indexing the first container of a
    deployment that has none. *)
Definition setupConfig (conf : option ConfigRef) (dep : Deployment) : option Deployment :=
  match conf with
  | None => Some dep
  | Some conf =>
    dep ← assignContainer0
            (appendVolumeMount {| VolumeMount_Name := "nginx-config";
                                  VolumeMount_MountPath := configMountPath |}) dep;
    if String.eqb (ConfigRef_Kind conf) ConfigKindConfigMap then
      Some (appendVolume
              {| Volume_Name := "nginx-config";
                 Volume_VolumeSource :=
                   {| VolumeSource_ConfigMap :=
                        Some {| ConfigMapVolumeSource_LocalObjectReference :=
                                  {| LocalObjectReference_Name := ConfigRef_Name conf |} |};
                      VolumeSource_DownwardAPI := None;
                      VolumeSource_Secret := None |} |} dep)
    else if String.eqb (ConfigRef_Kind conf) ConfigKindInline then
      let dep :=
        match Deployment_TemplateAnnotations dep with
        | None => Deployment_setTemplateAnnotations dep (Some ∅)
        | Some _ => dep
        end in
      let dep :=
        Deployment_setTemplateAnnotations dep
          (Some (<[ConfigRef_Name conf := ConfigRef_Value conf]>
                   (default ∅ (Deployment_TemplateAnnotations dep)))) in
      Some (appendVolume
              {| Volume_Name := "nginx-config";
                 Volume_VolumeSource :=
                   {| VolumeSource_ConfigMap := None;
                      VolumeSource_DownwardAPI :=
                        Some {| DownwardAPIVolumeSource_Items :=
                                  [ {| DownwardAPIVolumeFile_Path := "nginx.conf";
                                       DownwardAPIVolumeFile_FieldRef :=
                                         Some {| ObjectFieldSelector_FieldPath :=
                                                   "metadata.annotations['"
                                                   +:+ ConfigRef_Name conf +:+ "']" |} |} ] |};
                      VolumeSource_Secret := None |} |} dep)
    else Some dep
  end.

(** [setupTLS] appends an https port if TLS secrets are specified.  [secret]
    is a pointer: the result holds the secret it points to after the call,
    next to the deployment. *)
Definition setupTLS (secret : option TLSSecret) (dep : Deployment)
  : option (option TLSSecret * Deployment) :=
  match secret with
  | None => Some (None, dep)
  | Some secret =>
    dep ← assignContainer0
            (fun c => Container_setPorts c
               (Container_Ports c ++
                  [ {| ContainerPort_Name := defaultHTTPSPortName;
                       ContainerPort_ContainerPort := 443;
                       ContainerPort_Protocol := ProtocolTCP |} ])) dep;
    dep ← assignContainer0
            (fun c => Container_setReadinessProbe c
               (Some {| Probe_Handler :=
                          {| Handler_HTTPGet :=
                               Some {| HTTPGetAction_Path := "/";
                                       HTTPGetAction_Port := FromString defaultHTTPSPortName;
                                       HTTPGetAction_Scheme := URISchemeHTTPS |} |} |})) dep;
    dep ← assignContainer0
            (appendVolumeMount {| VolumeMount_Name := "nginx-certs";
                                  VolumeMount_MountPath := certMountPath |}) dep;
    let KeyField := valueOrDefault (TLSSecret_KeyField secret) "tls.key" in
    let CertificateField := valueOrDefault (TLSSecret_CertificateField secret) "tls.crt" in
    let KeyPath := valueOrDefault (TLSSecret_KeyPath secret) KeyField in
    let CertificatePath := valueOrDefault (TLSSecret_CertificatePath secret) CertificateField in
    let secret :=
      {| TLSSecret_SecretName := TLSSecret_SecretName secret;
         TLSSecret_KeyField := KeyField;
         TLSSecret_CertificateField := CertificateField;
         TLSSecret_KeyPath := KeyPath;
         TLSSecret_CertificatePath := CertificatePath |} in
    Some (Some secret,
          appendVolume
            {| Volume_Name := "nginx-certs";
               Volume_VolumeSource :=
                 {| VolumeSource_ConfigMap := None;
                    VolumeSource_DownwardAPI := None;
                    VolumeSource_Secret :=
                      Some {| SecretVolumeSource_SecretName := TLSSecret_SecretName secret;
                              SecretVolumeSource_Items :=
                                [ {| KeyToPath_Key := TLSSecret_KeyField secret;
                                     KeyToPath_Path := TLSSecret_KeyPath secret |};
                                  {| KeyToPath_Key := TLSSecret_CertificateField secret;
                                     KeyToPath_Path := TLSSecret_CertificatePath secret |} ] |} |} |}
            dep)
  end.

Definition nginxGVK : GroupVersionKind :=
  {| GroupVersionKind_Group := SchemeGroupVersion_Group;
     GroupVersionKind_Version := SchemeGroupVersion_Version;
     GroupVersionKind_Kind := "Nginx" |}.

(** [NewDeployment] creates a deployment for a given Nginx resource.  The
    resource is behind a pointer and is written to ([n.Spec.Image], and the
    secret that [n.Spec.TLSSecret] points to, which [setupTLS] receives): the
    result is the resource after the call and the pair returned; [None] is a
    panic. *)
Definition NewDeployment (n : Nginx) : option (Nginx * result Deployment) :=
  let n := Nginx_setSpec n
             (NginxSpec_setImage (Nginx_Spec n)
                (valueOrDefault (NginxSpec_Image (Nginx_Spec n)) defaultNginxImage)) in
  let name := ObjectMeta_Name (Nginx_ObjectMeta n) in
  let namespace := ObjectMeta_Namespace (Nginx_ObjectMeta n) in
  let deployment :=
    {| Deployment_TypeMeta :=
         {| TypeMeta_Kind := "Deployment"; TypeMeta_APIVersion := "apps/v1" |};
       Deployment_ObjectMeta :=
         {| ObjectMeta_Name := name +:+ "-deployment";
            ObjectMeta_Namespace := namespace;
            ObjectMeta_UID := "";
            ObjectMeta_Labels := None;
            ObjectMeta_Annotations := None;
            ObjectMeta_OwnerReferences :=
              [NewControllerRef (Nginx_ObjectMeta n) nginxGVK] |};
       Deployment_Spec :=
         {| DeploymentSpec_Replicas := NginxSpec_Replicas (Nginx_Spec n);
            DeploymentSpec_Selector :=
              Some {| LabelSelector_MatchLabels := LabelsForNginx name |};
            DeploymentSpec_Template :=
              {| PodTemplateSpec_ObjectMeta :=
                   {| ObjectMeta_Name := "";
                      ObjectMeta_Namespace := namespace;
                      ObjectMeta_UID := "";
                      ObjectMeta_Labels := LabelsForNginx name;
                      ObjectMeta_Annotations := None;
                      ObjectMeta_OwnerReferences := [] |};
                 PodTemplateSpec_Spec :=
                   {| PodSpec_Containers :=
                        [ {| Container_Name := "nginx";
                             Container_Image := NginxSpec_Image (Nginx_Spec n);
                             Container_Ports :=
                               [ {| ContainerPort_Name := defaultHTTPPortName;
                                    ContainerPort_ContainerPort := 80;
                                    ContainerPort_Protocol := ProtocolTCP |} ];
                             Container_Resources :=
                               NginxPodTemplateSpec_Resources
                                 (NginxSpec_PodTemplate (Nginx_Spec n));
                             Container_ReadinessProbe :=
                               Some {| Probe_Handler :=
                                         {| Handler_HTTPGet :=
                                              Some {| HTTPGetAction_Path := "/";
                                                      HTTPGetAction_Port :=
                                                        FromString defaultHTTPPortName;
                                                      HTTPGetAction_Scheme := URISchemeHTTP |} |} |};
                             Container_VolumeMounts := [] |} ];
                      PodSpec_Volumes := [];
                      PodSpec_Affinity :=
                        NginxPodTemplateSpec_Affinity
                          (NginxSpec_PodTemplate (Nginx_Spec n)) |} |} |} |} in
  deployment ← setupConfig (NginxSpec_Config (Nginx_Spec n)) deployment;
  '(secret, deployment) ← setupTLS (NginxSpec_TLSSecret (Nginx_Spec n)) deployment;
  let n := Nginx_setSpec n (NginxSpec_setTLSSecret (Nginx_Spec n) secret) in
  (* This is done on the last step because n.Spec may have mutated during
     these methods *)
  match SetNginxSpec (Deployment_ObjectMeta deployment) (Nginx_Spec n) with
  | (_, Some err) => Some (n, Err err)
  | (o, None) => Some (n, Ok (Deployment_setObjectMeta deployment o))
  end.

(** [NewService] assembles the ClusterIP service for the Nginx. *)
Definition NewService (n : Nginx) : Service :=
  let name := ObjectMeta_Name (Nginx_ObjectMeta n) in
  let service :=
    {| Service_TypeMeta := {| TypeMeta_Kind := "Service"; TypeMeta_APIVersion := "v1" |};
       Service_ObjectMeta :=
         {| ObjectMeta_Name := name +:+ "-service";
            ObjectMeta_Namespace := ObjectMeta_Namespace (Nginx_ObjectMeta n);
            ObjectMeta_UID := "";
            ObjectMeta_Labels := LabelsForNginx name;
            ObjectMeta_Annotations := None;
            ObjectMeta_OwnerReferences :=
              [NewControllerRef (Nginx_ObjectMeta n) nginxGVK] |};
       Service_Spec :=
         {| ServiceSpec_Ports :=
              [ {| ServicePort_Name := defaultHTTPPortName;
                   ServicePort_Protocol := ProtocolTCP;
                   ServicePort_TargetPort := FromString defaultHTTPPortName;
                   ServicePort_Port := 80 |} ];
            ServiceSpec_Selector := LabelsForNginx name;
            ServiceSpec_Type := ServiceTypeClusterIP |} |} in
  match NginxSpec_TLSSecret (Nginx_Spec n) with
  | Some _ =>
    Service_setPorts service
      (ServiceSpec_Ports (Service_Spec service) ++
         [ {| ServicePort_Name := defaultHTTPSPortName;
              ServicePort_Protocol := ProtocolTCP;
              ServicePort_TargetPort := FromString defaultHTTPSPortName;
              ServicePort_Port := 443 |} ])
  | None => service
  end.

End Operator.

Arguments Container : clear implicits.
Arguments PodSpec : clear implicits.
Arguments PodTemplateSpec : clear implicits.
Arguments DeploymentSpec : clear implicits.
Arguments Deployment : clear implicits.
Arguments NginxPodTemplateSpec : clear implicits.
Arguments NginxSpec : clear implicits.
Arguments Nginx : clear implicits.

(** ** [k8s.io/api/core/v1]: the resource requirements

    [corev1.ResourceRequirements], the type of the resources of the pod
    template of the resource, which [NewDeployment] assigns to the container:
    the limits and the requests, two maps from the name of a resource to a
    quantity, nil or not, both tagged [omitempty].  The quantities are a
    parameter here. *)
Section ResourceRequirements.

Context {Quantity : Type} `{!GoJSON Quantity}.

Record ResourceRequirements : Type := {
  ResourceRequirements_Limits : option (gmap string Quantity);
  ResourceRequirements_Requests : option (gmap string Quantity)
}.

(** [json.Marshal] writes a map as an object, by increasing key. *)
Definition keyLe (a b : string * Quantity) : Prop := String.leb a.1 b.1 = true.

#[export] Instance keyLe_dec (a b : string * Quantity) : Decision (keyLe a b).
Proof. unfold keyLe. apply _. Defined.

Definition encodeMap (m : gmap string Quantity) : json.value :=
  json.Object (map (fun kv => (kv.1, toJSON kv.2)) (merge_sort keyLe (map_to_list m))).

(** A map tagged [omitempty] is left out when it has no entries, nil or
    not. *)
Definition omitEmptyMap (k : string) (m : option (gmap string Quantity))
  : list (string * json.value) :=
  match m with
  | None => []
  | Some m => if decide (size m = 0%nat) then [] else [(k, encodeMap m)]
  end.

(** [json.Unmarshal] into a map: [null] sets it to nil; an object sets its
    members in the map, in order, each as a new quantity, and makes the map
    first when it is nil. *)
Fixpoint decodeEntries (ms : list (string * json.value)) (m : gmap string Quantity)
  : result (gmap string Quantity) :=
  match ms with
  | [] => Ok m
  | (k, v) :: ms' => q ← decodeInto v zeroValue; decodeEntries ms' (<[k := q]> m)
  end.

Definition decodeMap (v : json.value) (cur : option (gmap string Quantity))
  : result (option (gmap string Quantity)) :=
  match v with
  | json.Null => Ok None
  | json.Object ms => m ← decodeEntries ms (default ∅ cur); Ok (Some m)
  | _ => Err UnmarshalTypeError
  end.

Definition ResourceRequirements_toJSON (r : ResourceRequirements) : json.value :=
  json.Object (omitEmptyMap "limits" (ResourceRequirements_Limits r)
               ++ omitEmptyMap "requests" (ResourceRequirements_Requests r)).

Definition ResourceRequirements_field (k : string) (v : json.value)
    (r : ResourceRequirements) : result ResourceRequirements :=
  if equalFold "limits" k then
    l ← decodeMap v (ResourceRequirements_Limits r);
    Ok {| ResourceRequirements_Limits := l;
          ResourceRequirements_Requests := ResourceRequirements_Requests r |}
  else if equalFold "requests" k then
    q ← decodeMap v (ResourceRequirements_Requests r);
    Ok {| ResourceRequirements_Limits := ResourceRequirements_Limits r;
          ResourceRequirements_Requests := q |}
  else Ok r.

#[export] Instance ResourceRequirements_json : GoJSON ResourceRequirements := {
  zeroValue := {| ResourceRequirements_Limits := None;
                  ResourceRequirements_Requests := None |};
  toJSON := ResourceRequirements_toJSON;
  decodeInto := decodeStruct ResourceRequirements_field
}.

End ResourceRequirements.

Arguments ResourceRequirements : clear implicits.

(** ** The Spec Normalizer of the specification

    Section 4.1 of the spec, in its words: empty image to the conventional
    default tag; when a TLSRef is present, empty key-field to ["tls.key"],
    empty certificate-field to ["tls.crt"], empty key-path to the resolved
    key-field, empty certificate-path to the resolved certificate-field.
    [NewDeployment] has no such function: it is compared below with what
    [NewDeployment] leaves in the resource. *)
Definition orElse (s d : string) : string :=
  if String.eqb s "" then d else s.

Definition normalizeTLS (t : TLSSecret) : TLSSecret :=
  let keyField := orElse (TLSSecret_KeyField t) "tls.key" in
  let certificateField := orElse (TLSSecret_CertificateField t) "tls.crt" in
  {| TLSSecret_SecretName := TLSSecret_SecretName t;
     TLSSecret_KeyField := keyField;
     TLSSecret_CertificateField := certificateField;
     TLSSecret_KeyPath := orElse (TLSSecret_KeyPath t) keyField;
     TLSSecret_CertificatePath := orElse (TLSSecret_CertificatePath t) certificateField |}.

Definition normalize {R A : Type} (s : NginxSpec R A) : NginxSpec R A :=
  {| NginxSpec_Replicas := NginxSpec_Replicas s;
     NginxSpec_Image := orElse (NginxSpec_Image s) "nginx:latest";
     NginxSpec_Config := NginxSpec_Config s;
     NginxSpec_TLSSecret := normalizeTLS <$> NginxSpec_TLSSecret s;
     NginxSpec_PodTemplate := NginxSpec_PodTemplate s |}.

(** A spec in which every field that has a default is filled. *)
Definition resolved {R A : Type} (s : NginxSpec R A) : Prop :=
  NginxSpec_Image s ≠ "" /\
  forall t, NginxSpec_TLSSecret s = Some t ->
    TLSSecret_KeyField t ≠ "" /\ TLSSecret_CertificateField t ≠ "" /\
    TLSSecret_KeyPath t ≠ "" /\ TLSSecret_CertificatePath t ≠ "".

(** ** Valid specs

    The strings of a valid spec are UTF-8 (the API server hands out no
    others), its replica count is an [int32], and the pod template overrides
    are values that their own encoding gives back. *)
Definition validText (s : string) : Prop := utf8.ValidString s = true.

Definition encodable {A} `{GoJSON A} (a : A) : Prop :=
  json.wf (toJSON a) = true /\ toJSON a ≠ json.Null
  /\ decodeInto (toJSON a) zeroValue = Ok a.

Definition validConfigRef (c : ConfigRef) : Prop :=
  validText (ConfigRef_Name c) /\ validText (ConfigRef_Kind c)
  /\ validText (ConfigRef_Value c).

Definition validTLSSecret (t : TLSSecret) : Prop :=
  validText (TLSSecret_SecretName t) /\ validText (TLSSecret_KeyField t)
  /\ validText (TLSSecret_CertificateField t) /\ validText (TLSSecret_KeyPath t)
  /\ validText (TLSSecret_CertificatePath t).

Definition validSpec {R A : Type} `{!GoJSON R, !GoJSON A} (s : NginxSpec R A) : Prop :=
  validText (NginxSpec_Image s)
  /\ (forall z, NginxSpec_Replicas s = Some z -> inInt32 z = true)
  /\ (forall c, NginxSpec_Config s = Some c -> validConfigRef c)
  /\ (forall t, NginxSpec_TLSSecret s = Some t -> validTLSSecret t)
  /\ encodable (NginxPodTemplateSpec_Resources (NginxSpec_PodTemplate s))
  /\ (forall a, NginxPodTemplateSpec_Affinity (NginxSpec_PodTemplate s) = Some a ->
        encodable a).

(** ** Specs with well-formed encodings

    Less than a valid spec: of the pod template overrides, only that their
    encodings are JSON values other than [null], with UTF-8 strings and
    integer numbers; nothing on how they are read back. *)
Definition wellEncoded {R A : Type} `{!GoJSON R, !GoJSON A} (s : NginxSpec R A) : Prop :=
  validText (NginxSpec_Image s)
  /\ (forall z, NginxSpec_Replicas s = Some z -> inInt32 z = true)
  /\ (forall c, NginxSpec_Config s = Some c -> validConfigRef c)
  /\ (forall t, NginxSpec_TLSSecret s = Some t -> validTLSSecret t)
  /\ (json.wf (toJSON (NginxPodTemplateSpec_Resources (NginxSpec_PodTemplate s))) = true
      /\ toJSON (NginxPodTemplateSpec_Resources (NginxSpec_PodTemplate s)) ≠ json.Null)
  /\ (forall a, NginxPodTemplateSpec_Affinity (NginxSpec_PodTemplate s) = Some a ->
        json.wf (toJSON a) = true /\ toJSON a ≠ json.Null).

(** An override as its encoding, which is written and read as it is (a
    [json.RawMessage]), and the spec with its overrides as their encodings:
    the two specs have the same encoding. *)
Definition Encoded_json : GoJSON json.value := {|
  zeroValue := json.Null;
  toJSON := fun v => v;
  decodeInto := fun v _ => Ok v
|}.

Definition encodedOverrides {R A : Type} `{!GoJSON R, !GoJSON A} (s : NginxSpec R A)
  : NginxSpec json.value json.value :=
  {| NginxSpec_Replicas := NginxSpec_Replicas s;
     NginxSpec_Image := NginxSpec_Image s;
     NginxSpec_Config := NginxSpec_Config s;
     NginxSpec_TLSSecret := NginxSpec_TLSSecret s;
     NginxSpec_PodTemplate :=
       {| NginxPodTemplateSpec_Affinity :=
            toJSON <$> NginxPodTemplateSpec_Affinity (NginxSpec_PodTemplate s);
          NginxPodTemplateSpec_Resources :=
            toJSON (NginxPodTemplateSpec_Resources (NginxSpec_PodTemplate s)) |} |}.

(** ** Sample resources *)

Module Sample.

(** A stand-in for the pod template overrides: named quantities, written as
    an object of strings. *)
Definition Quantities : Type := list (string * string).

Definition Quantities_toJSON (q : Quantities) : json.value :=
  json.Object (map (fun kv => (fst kv, json.Str (snd kv))) q).

Fixpoint Quantities_members (ms : list (string * json.value)) : result Quantities :=
  match ms with
  | [] => Ok []
  | (k, json.Str s) :: ms' => q ← Quantities_members ms'; Ok ((k, s) :: q)
  | _ => Err UnmarshalTypeError
  end.

#[global] Instance Quantities_json : GoJSON Quantities := {
  zeroValue := [];
  toJSON := Quantities_toJSON;
  decodeInto v cur :=
    match v with
    | json.Null => Ok cur
    | json.Object ms => Quantities_members ms
    | _ => Err UnmarshalTypeError
    end
}.

Definition ConfigKindConfigMap : string := "ConfigMap".
Definition ConfigKindInline : string := "Inline".

Definition identity : ObjectMeta :=
  {| ObjectMeta_Name := "web"; ObjectMeta_Namespace := "default";
     ObjectMeta_UID := "5f1b"; ObjectMeta_Labels := None;
     ObjectMeta_Annotations := None; ObjectMeta_OwnerReferences := [] |}.

Definition kind : TypeMeta :=
  {| TypeMeta_Kind := "Nginx"; TypeMeta_APIVersion := "nginx.tsuru.io/v1alpha1" |}.

Definition overrides : NginxPodTemplateSpec Quantities Quantities :=
  {| NginxPodTemplateSpec_Affinity := Some [("zone", "a")];
     NginxPodTemplateSpec_Resources := [("cpu", "100m")] |}.

(** Scenarios B and C of the spec together: an inline configuration and a
    TLS secret of which the name only is given. *)
Definition inlineConfig : ConfigRef :=
  {| ConfigRef_Name := "custom"; ConfigRef_Kind := ConfigKindInline;
     ConfigRef_Value := "worker_processes 2;" |}.

Definition secret : TLSSecret :=
  {| TLSSecret_SecretName := "mysecret"; TLSSecret_KeyField := "";
     TLSSecret_CertificateField := ""; TLSSecret_KeyPath := "";
     TLSSecret_CertificatePath := "" |}.

Definition full : Nginx Quantities Quantities :=
  {| Nginx_TypeMeta := kind; Nginx_ObjectMeta := identity;
     Nginx_Spec :=
       {| NginxSpec_Replicas := Some 3; NginxSpec_Image := "";
          NginxSpec_Config := Some inlineConfig; NginxSpec_TLSSecret := Some secret;
          NginxSpec_PodTemplate := overrides |} |}.

(** A configuration of a kind that [setupConfig] does not know. *)
Definition otherConfig : ConfigRef :=
  {| ConfigRef_Name := "custom"; ConfigRef_Kind := "Secret"; ConfigRef_Value := "" |}.

(** A deployment with one bare container, as [setupConfig] receives it. *)
Definition container : Container Quantities :=
  {| Container_Name := "nginx"; Container_Image := "nginx:latest";
     Container_Ports := []; Container_Resources := [("cpu", "100m")];
     Container_ReadinessProbe := None; Container_VolumeMounts := [] |}.

Definition deployment : Deployment Quantities Quantities :=
  {| Deployment_TypeMeta :=
       {| TypeMeta_Kind := "Deployment"; TypeMeta_APIVersion := "apps/v1" |};
     Deployment_ObjectMeta := ObjectMeta_zero;
     Deployment_Spec :=
       {| DeploymentSpec_Replicas := None;
          DeploymentSpec_Selector := None;
          DeploymentSpec_Template :=
            {| PodTemplateSpec_ObjectMeta := ObjectMeta_zero;
               PodTemplateSpec_Spec :=
                 {| PodSpec_Containers := [container];
                    PodSpec_Volumes := [];
                    PodSpec_Affinity := None |} |} |} |}.

(** An object whose annotation is not JSON. *)
Definition corrupt : ObjectMeta :=
  ObjectMeta_setAnnotations identity (Some {[ generatedFromAnnotation := "{" ]}).

End Sample.

(** ** More sample resources *)

Module SampleMore.

(** A resource without configuration and without TLS secret. *)
Definition bare : Nginx Sample.Quantities Sample.Quantities :=
  {| Nginx_TypeMeta := Sample.kind; Nginx_ObjectMeta := Sample.identity;
     Nginx_Spec :=
       {| NginxSpec_Replicas := Some 3; NginxSpec_Image := "";
          NginxSpec_Config := None; NginxSpec_TLSSecret := None;
          NginxSpec_PodTemplate := Sample.overrides |} |}.

(** A resource whose configuration is a config map. *)
Definition configMapRef : ConfigRef :=
  {| ConfigRef_Name := "site"; ConfigRef_Kind := Sample.ConfigKindConfigMap;
     ConfigRef_Value := "" |}.

Definition withConfigMap : Nginx Sample.Quantities Sample.Quantities :=
  {| Nginx_TypeMeta := Sample.kind; Nginx_ObjectMeta := Sample.identity;
     Nginx_Spec :=
       {| NginxSpec_Replicas := None; NginxSpec_Image := "nginx:1.15";
          NginxSpec_Config := Some configMapRef; NginxSpec_TLSSecret := None;
          NginxSpec_PodTemplate := Sample.overrides |} |}.

(** A resource whose configuration is of a kind that [setupConfig] does not
    know. *)
Definition withOtherConfig : Nginx Sample.Quantities Sample.Quantities :=
  {| Nginx_TypeMeta := Sample.kind; Nginx_ObjectMeta := Sample.identity;
     Nginx_Spec :=
       {| NginxSpec_Replicas := None; NginxSpec_Image := "nginx:1.15";
          NginxSpec_Config := Some Sample.otherConfig; NginxSpec_TLSSecret := None;
          NginxSpec_PodTemplate := Sample.overrides |} |}.

(** A deployment without containers. *)
Definition empty : Deployment Sample.Quantities Sample.Quantities :=
  {| Deployment_TypeMeta :=
       {| TypeMeta_Kind := "Deployment"; TypeMeta_APIVersion := "apps/v1" |};
     Deployment_ObjectMeta := ObjectMeta_zero;
     Deployment_Spec :=
       {| DeploymentSpec_Replicas := None;
          DeploymentSpec_Selector := None;
          DeploymentSpec_Template :=
            {| PodTemplateSpec_ObjectMeta := ObjectMeta_zero;
               PodTemplateSpec_Spec :=
                 {| PodSpec_Containers := [];
                    PodSpec_Volumes := [];
                    PodSpec_Affinity := None |} |} |} |}.

(** An object that has an annotation of its own. *)
Definition annotated : ObjectMeta :=
  ObjectMeta_setAnnotations Sample.identity (Some {[ "owner" := "team-a" ]}).

(** An object whose annotation has a replica count that is no [int32]. *)
Definition overflow : ObjectMeta :=
  ObjectMeta_setAnnotations Sample.identity
    (Some {[ generatedFromAnnotation :=
               json.encode (json.Object [("replicas", json.Number 2147483648)]) ]}).

(** A stand-in for [resource.Quantity]: a quantity as its text. *)
Definition Amount : Type := string.

#[global] Instance Amount_json : GoJSON Amount := {
  zeroValue := "";
  toJSON := json.Str;
  decodeInto := decodeString
}.

(** The resources of a resource written with [limits: {}]: [json.Unmarshal]
    makes the map, which has no entries. *)
Definition emptyLimits : ResourceRequirements Amount :=
  {| ResourceRequirements_Limits := Some ∅; ResourceRequirements_Requests := None |}.

Definition withEmptyLimits : NginxSpec (ResourceRequirements Amount) Sample.Quantities :=
  {| NginxSpec_Replicas := Some 3; NginxSpec_Image := "nginx:1.15";
     NginxSpec_Config := None; NginxSpec_TLSSecret := None;
     NginxSpec_PodTemplate :=
       {| NginxPodTemplateSpec_Affinity := None;
          NginxPodTemplateSpec_Resources := emptyLimits |} |}.

(** What is read back for it: no limits at all. *)
Definition withoutLimits : NginxSpec (ResourceRequirements Amount) Sample.Quantities :=
  {| NginxSpec_Replicas := Some 3; NginxSpec_Image := "nginx:1.15";
     NginxSpec_Config := None; NginxSpec_TLSSecret := None;
     NginxSpec_PodTemplate :=
       {| NginxPodTemplateSpec_Affinity := None;
          NginxPodTemplateSpec_Resources := zeroValue |} |}.

(** Resources with limits and requests, and a TLS secret of which the name
    only is given. *)
Definition withLimits : NginxSpec (ResourceRequirements Amount) Sample.Quantities :=
  {| NginxSpec_Replicas := Some 3; NginxSpec_Image := "";
     NginxSpec_Config := Some Sample.inlineConfig;
     NginxSpec_TLSSecret := Some Sample.secret;
     NginxSpec_PodTemplate :=
       {| NginxPodTemplateSpec_Affinity := Some [("zone", "a")];
          NginxPodTemplateSpec_Resources :=
            {| ResourceRequirements_Limits :=
                 Some {[ "memory" := "128Mi"; "cpu" := "500m" ]};
               ResourceRequirements_Requests := Some {[ "cpu" := "250m" ]} |} |} |}.

End SampleMore.

(** * Properties *)

(** ** Bytes and strings *)

#[local] Arguments String.append !s1 s2 / : simpl nomatch.

Lemma byteOf_byteVal (c : ascii) : byteOf (byteVal c) = c.
Proof.
  unfold byteOf, byteVal. rewrite N2Z.id. apply ascii_N_embedding.
Qed.

Lemma byteVal_range (c : ascii) : 0 <= byteVal c < 256.
Proof.
  unfold byteVal. pose proof (N_ascii_bounded c). lia.
Qed.

Lemma byteVal_byteOf (z : Z) : 0 <= z < 256 -> byteVal (byteOf z) = z.
Proof.
  intros Hz. unfold byteOf, byteVal.
  rewrite N_ascii_embedding by lia. lia.
Qed.

Lemma byteOf_eq (z : Z) (c : ascii) : z = byteVal c -> byteOf z = c.
Proof. intros ->. apply byteOf_byteVal. Qed.

Lemma takeS_dropS (n : nat) (s : string) : takeS n s +:+ dropS n s = s.
Proof.
  revert s; induction n as [|n IH]; intros [|c s]; simpl; try done.
  f_equal. apply IH.
Qed.

Lemma dropS_length (n : nat) (s : string) :
  String.length (dropS n s) = (String.length s - n)%nat.
Proof.
  revert s; induction n as [|n IH]; intros [|c s]; simpl; try done; lia.
Qed.

(** ** [unicode/utf8]: a valid sequence is the encoding of its rune *)

Module utf8_facts.
Import utf8.

Ltac bools :=
  repeat match goal with
  | H : (_ && _)%bool = true |- _ => apply andb_prop in H; destruct H
  | H : (_ || _)%bool = false |- _ => apply orb_false_elim in H; destruct H
  | H : negb _ = false |- _ => apply negb_false_iff in H
  | H : negb _ = true |- _ => apply negb_true_iff in H
  | H : (_ <=? _) = true |- _ => apply Z.leb_le in H
  | H : (_ <=? _) = false |- _ => apply Z.leb_gt in H
  | H : (_ <? _) = true |- _ => apply Z.ltb_lt in H
  | H : (_ <? _) = false |- _ => apply Z.ltb_ge in H
  | H : (_ =? _) = true |- _ => apply Z.eqb_eq in H
  | H : (_ =? _) = false |- _ => apply Z.eqb_neq in H
  end.


Lemma enc2 (b0 b1 : Z) :
  0xC2 <= b0 <= 0xDF -> 0x80 <= b1 <= 0xBF ->
  let r := (b0 mod 32) * 64 + b1 mod 64 in
  0x80 <= r <= 0x7FF /\ 0xC0 + r / 64 = b0 /\ 0x80 + r mod 64 = b1.
Proof. intros; subst r; Z.div_mod_to_equations; lia. Qed.

Lemma enc3 (b0 b1 b2 : Z) :
  0xE0 <= b0 <= 0xEF -> 0x80 <= b1 <= 0xBF ->
  (b0 = 0xE0 -> 0xA0 <= b1) -> (b0 = 0xED -> b1 <= 0x9F) ->
  0x80 <= b2 <= 0xBF ->
  let r := (b0 mod 16) * 4096 + (b1 mod 64) * 64 + b2 mod 64 in
  0x800 <= r <= 0xFFFF /\ ~ (0xD800 <= r <= 0xDFFF)
  /\ 0xE0 + r / 4096 = b0 /\ 0x80 + (r / 64) mod 64 = b1 /\ 0x80 + r mod 64 = b2.
Proof. intros; subst r; Z.div_mod_to_equations; lia. Qed.

Lemma enc4 (b0 b1 b2 b3 : Z) :
  0xF0 <= b0 <= 0xF4 -> 0x80 <= b1 <= 0xBF ->
  (b0 = 0xF0 -> 0x90 <= b1) -> (b0 = 0xF4 -> b1 <= 0x8F) ->
  0x80 <= b2 <= 0xBF -> 0x80 <= b3 <= 0xBF ->
  let r := (b0 mod 8) * 262144 + (b1 mod 64) * 4096 + (b2 mod 64) * 64 + b3 mod 64 in
  0x10000 <= r <= 0x10FFFF
  /\ 0xF0 + r / 262144 = b0 /\ 0x80 + (r / 4096) mod 64 = b1
  /\ 0x80 + (r / 64) mod 64 = b2 /\ 0x80 + r mod 64 = b3.
Proof. intros; subst r; Z.div_mod_to_equations; lia. Qed.

Lemma leading_spec (b0 : Z) (sz : nat) (lo hi : Z) :
  leading b0 = Some (sz, lo, hi) ->
  0x80 <= lo /\ hi <= 0xBF /\
  ((sz = 2%nat /\ 0xC2 <= b0 <= 0xDF)
   \/ (sz = 3%nat /\ 0xE0 <= b0 <= 0xEF
       /\ (b0 = 0xE0 -> lo = 0xA0) /\ (b0 = 0xED -> hi = 0x9F))
   \/ (sz = 4%nat /\ 0xF0 <= b0 <= 0xF4
       /\ (b0 = 0xF0 -> lo = 0x90) /\ (b0 = 0xF4 -> hi = 0x8F))).
Proof.
  unfold leading.
  repeat match goal with
  | |- (if ?b then _ else _) = _ -> _ => destruct b eqn:?
  end; intros [= <- <- <-]; bools; lia.
Qed.

Ltac enc_byte := apply byteOf_eq; lia.

(** A sequence that [DecodeRuneInString] accepts is the encoding of the rune
    it gives, and only its bytes are looked at. *)
Lemma encode_decoded (s : string) (r : Z) (n : nat) :
  DecodeRuneInString s = (r, n) ->
  (2 <= n)%nat ->
  EncodeRune r = takeS n s /\ 0x80 <= r /\ (n <= String.length s)%nat
  /\ forall t, DecodeRuneInString (takeS n s +:+ t) = (r, n).
Proof.
  unfold DecodeRuneInString at 1.
  destruct s as [|c0 s1]; [intros [= <- <-]; lia|].
  pose proof (byteVal_range c0) as R0.
  destruct (byteVal c0 <? RuneSelf) eqn:E0; [intros [= <- <-]; lia|].
  destruct (leading (byteVal c0)) as [[[sz lo] hi]|] eqn:EL; [|intros [= <- <-]; lia].
  pose proof (leading_spec _ _ _ _ EL) as (Hlo & Hhi & Hsz).
  destruct s1 as [|c1 s2]; [intros [= <- <-]; lia|].
  pose proof (byteVal_range c1) as R1.
  destruct ((byteVal c1 <? lo) || (hi <? byteVal c1))%bool eqn:E1; [intros [= <- <-]; lia|].
  destruct (sz <=? 2)%nat eqn:S2.
  { intros [= <- <-] _.
    assert (forall t, DecodeRuneInString (takeS 2 (String c0 (String c1 s2)) +:+ t)
                      = ((byteVal c0 mod 32) * 64 + byteVal c1 mod 64, 2%nat)) as HT.
    { intros t. simpl. rewrite E0, EL, E1, S2. done. }
    apply Nat.leb_le in S2. bools.
    assert (0xC2 <= byteVal c0 <= 0xDF) as B0 by lia.
    destruct (enc2 (byteVal c0) (byteVal c1)) as (Hr & G0 & G1); [lia..|].
    repeat split; [|lia|simpl; lia|done].
    unfold EncodeRune.
    destruct (_ <=? 127) eqn:?; bools; [lia|].
    destruct (_ <=? 2047) eqn:?; bools; [|lia].
    simpl. f_equal; [enc_byte|]. f_equal; enc_byte. }
  destruct s2 as [|c2 s3]; [intros [= <- <-]; lia|].
  pose proof (byteVal_range c2) as R2.
  destruct (negb (isCont (byteVal c2))) eqn:E2; [intros [= <- <-]; lia|].
  destruct (sz <=? 3)%nat eqn:S3.
  { intros [= <- <-] _.
    assert (forall t,
      DecodeRuneInString (takeS 3 (String c0 (String c1 (String c2 s3))) +:+ t)
      = ((byteVal c0 mod 16) * 4096 + (byteVal c1 mod 64) * 64 + byteVal c2 mod 64,
         3%nat)) as HT.
    { intros t. simpl. rewrite E0, EL, E1, S2, E2, S3. done. }
    apply Nat.leb_le in S3. apply Nat.leb_gt in S2. unfold isCont in E2. bools.
    destruct Hsz as [[? _]|[(_ & B0 & Ha & Hb)|[? _]]]; [lia| |lia].
    destruct (enc3 (byteVal c0) (byteVal c1) (byteVal c2)) as (Hr & Hs & G0 & G1 & G2);
      [lia..|].
    repeat split; [|lia|simpl; lia|done].
    unfold EncodeRune, MaxRune, RuneError.
    destruct (_ <=? 127) eqn:?; bools; [lia|].
    destruct (_ <=? 2047) eqn:?; bools; [lia|].
    destruct (_ || _)%bool eqn:Hsur.
    { exfalso. apply orb_prop in Hsur as [?|?]; bools; lia. }
    destruct (_ <=? 65535) eqn:?; bools; [|lia].
    simpl. f_equal; [enc_byte|]. f_equal; [enc_byte|]. f_equal; enc_byte. }
  destruct s3 as [|c3 s4]; [intros [= <- <-]; lia|].
  pose proof (byteVal_range c3) as R3.
  destruct (negb (isCont (byteVal c3))) eqn:E3; [intros [= <- <-]; lia|].
  intros [= <- <-] _.
  assert (forall t,
    DecodeRuneInString
      (takeS 4 (String c0 (String c1 (String c2 (String c3 s4)))) +:+ t)
    = ((byteVal c0 mod 8) * 262144 + (byteVal c1 mod 64) * 4096
       + (byteVal c2 mod 64) * 64 + byteVal c3 mod 64, 4%nat)) as HT.
  { intros t. simpl. rewrite E0, EL, E1, S2, E2, S3, E3. done. }
  apply Nat.leb_gt in S2, S3. unfold isCont in E2, E3. bools.
  destruct Hsz as [[? _]|[[? _]|(_ & B0 & Ha & Hb)]]; [lia|lia|].
  destruct (enc4 (byteVal c0) (byteVal c1) (byteVal c2) (byteVal c3))
    as (Hr & G0 & G1 & G2 & G3); [lia..|].
  repeat split; [|lia|simpl; lia|done].
  unfold EncodeRune, MaxRune, RuneError.
  destruct (_ <=? 127) eqn:?; bools; [lia|].
  destruct (_ <=? 2047) eqn:?; bools; [lia|].
  destruct (_ || _)%bool eqn:Hsur.
  { exfalso. apply orb_prop in Hsur as [?|?]; bools; lia. }
  destruct (_ <=? 65535) eqn:?; bools; [lia|].
  simpl. f_equal; [enc_byte|]. f_equal; [enc_byte|]. f_equal; [enc_byte|].
  f_equal; enc_byte.
Qed.

End utf8_facts.

Lemma append_assoc (a b c : string) : (a +:+ b) +:+ c = a +:+ (b +:+ c).
Proof. induction a as [|x a IH]; simpl; [done|by rewrite IH]. Qed.

Lemma append_nil_r (a : string) : a +:+ EmptyString = a.
Proof. induction a as [|x a IH]; simpl; [done|by rewrite IH]. Qed.

Lemma append_length (a b : string) :
  String.length (a +:+ b) = (String.length a + String.length b)%nat.
Proof. induction a as [|x a IH]; simpl; [done|by rewrite IH]. Qed.

Lemma dropS_takeS_app (n : nat) (s t : string) :
  (n <= String.length s)%nat -> dropS n (takeS n s +:+ t) = t.
Proof.
  revert s; induction n as [|n IH]; intros [|c s]; simpl; intros Hn; try done; try lia.
  apply IH. lia.
Qed.

(** ** [encoding/json]: what is written is read back *)

Module json_facts.
Import json utf8 utf8_facts.

(** One byte below [RuneSelf], escaped, is read back as that byte. *)
Lemma unquote_escapeByte (c : ascii) (fuel : nat) (t : string) :
  byteVal c < 0x80 ->
  unquoteLoop (S fuel) (escapeByte c +:+ t)
  = '(u, rest) ← unquoteLoop fuel t; Some (String c u, rest).
Proof.
  intros Hc.
  destruct c as [[] [] [] [] [] [] [] []];
    try (exfalso; vm_compute in Hc; discriminate Hc); reflexivity.
Qed.

Lemma decode_nonascii (c : ascii) (s : string) (r : Z) (n : nat) :
  0x80 <= byteVal c ->
  DecodeRuneInString (String c s) = (r, n) ->
  (r = RuneError /\ n = 1%nat) \/ (2 <= n)%nat.
Proof.
  intros Hc. unfold DecodeRuneInString.
  destruct (_ <? RuneSelf) eqn:E; [unfold RuneSelf in E; bools; lia|].
  repeat match goal with
  | |- context [match ?x with _ => _ end] => destruct x eqn:?
  end; intros [= <- <-]; auto with lia.
Qed.

(** A byte from [RuneSelf] on starts a rune that is coerced to UTF-8. *)
Lemma unquoteLoop_nonascii (c : ascii) (s : string) (fuel : nat) :
  0x80 <= byteVal c ->
  unquoteLoop (S fuel) (String c s)
  = let '(rr, size) := DecodeRuneInString (String c s) in
    '(t, rest) ← unquoteLoop fuel (dropS size (String c s));
    Some (EncodeRune rr +:+ t, rest).
Proof.
  intros Hc. cbn [unquoteLoop].
  destruct (byteVal c =? 34) eqn:?; bools; [lia|].
  destruct (byteVal c =? 92) eqn:?; bools; [lia|].
  destruct (byteVal c <? 32) eqn:?; bools; [lia|].
  destruct (byteVal c <? RuneSelf) eqn:E; [unfold RuneSelf in E; bools; lia|].
  done.
Qed.

Lemma unquoteLoop_u2028 (fuel : nat) (t : string) (r : Z) :
  r = 0x2028 \/ r = 0x2029 ->
  unquoteLoop (S fuel) ("\u202" +:+ String (hexDigit (r mod 16)) t)
  = '(u, rest) ← unquoteLoop fuel t; Some (EncodeRune r +:+ u, rest).
Proof. intros [-> | ->]; reflexivity. Qed.

Lemma escapeByte_length (c : ascii) : (1 <= String.length (escapeByte c))%nat.
Proof. destruct c as [[] [] [] [] [] [] [] []]; vm_compute; lia. Qed.

(** What [appendString] writes for a valid string is read back as it. *)
Lemma unquote_appendStringLoop (n : nat) : forall (s rest : string) (fuel : nat),
  (String.length s <= n)%nat ->
  validLoop n s = true ->
  (String.length (appendStringLoop n s) < fuel)%nat ->
  unquoteLoop fuel (appendStringLoop n s +:+ String dquote rest) = Some (s, rest).
Proof.
  induction n as [|n IH]; intros s rest fuel Hlen Hv Hfuel.
  { destruct s; simpl in Hlen; [|lia]. destruct fuel; [simpl in Hfuel; lia|]. reflexivity. }
  destruct s as [|c s1].
  { destruct fuel; [simpl in Hfuel; lia|]. reflexivity. }
  destruct fuel as [|fuel]; [lia|].
  simpl in Hlen.
  cbn [appendStringLoop validLoop] in *.
  destruct (byteVal c <? RuneSelf) eqn:E0.
  - unfold RuneSelf in E0. bools.
    rewrite append_assoc, unquote_escapeByte by done.
    assert (DecodeRuneInString (String c s1) = (byteVal c, 1%nat)) as HD.
    { unfold DecodeRuneInString, RuneSelf.
      destruct (byteVal c <? 128) eqn:?; bools; [done|lia]. }
    rewrite HD in Hv.
    destruct ((byteVal c =? RuneError) && (1 =? 1)%nat)%bool eqn:?; [done|].
    simpl in Hv. rewrite append_length in Hfuel.
    pose proof (escapeByte_length c).
    rewrite (IH s1 rest fuel) by (done || lia). done.
  - unfold RuneSelf in E0. bools.
    destruct (DecodeRuneInString (String c s1)) as [r size] eqn:HD.
    destruct ((r =? RuneError) && (size =? 1)%nat)%bool eqn:Hbad; [done|].
    destruct (decode_nonascii _ _ _ _ E0 HD) as [[-> ->]|Hsize]; [done|].
    destruct (encode_decoded _ _ _ HD Hsize) as (Henc & Hr & Hsz & HT).
    assert (String.length (dropS size (String c s1)) <= n)%nat as Hl'.
    { rewrite dropS_length. simpl. lia. }
    destruct ((r =? 8232) || (r =? 8233))%bool eqn:Hls.
    + rewrite append_assoc.
      change (String (hexDigit (r mod 16)) ?a +:+ ?b)
        with (String (hexDigit (r mod 16)) (a +:+ b)).
      rewrite unquoteLoop_u2028 by (apply orb_prop in Hls as [?|?]; bools; auto).
      rewrite append_length in Hfuel. simpl in Hfuel.
      rewrite IH by (done || lia). simpl. rewrite Henc, takeS_dropS. done.
    + rewrite append_assoc.
      set (T := appendStringLoop n (dropS size (String c s1)) +:+ String dquote rest).
      assert (unquoteLoop fuel T = Some (dropS size (String c s1), rest)) as HI.
      { apply IH; [done|done|]. rewrite append_length in Hfuel.
        destruct size; [lia|]. simpl in Hfuel. cbn [dropS]. lia. }
      clearbody T.
      destruct size as [|size]; [lia|].
      change (takeS (S size) (String c s1) +:+ T)
        with (String c (takeS size s1 +:+ T)).
      rewrite unquoteLoop_nonascii by done.
      change (String c (takeS size s1 +:+ T))
        with (takeS (S size) (String c s1) +:+ T).
      rewrite HT, dropS_takeS_app by exact Hsz.
      rewrite HI. simpl. rewrite Henc. simpl. f_equal. f_equal. f_equal.
      apply (takeS_dropS size s1).
Qed.

Lemma appendString_app (s rest : string) :
  appendString s +:+ rest
  = String dquote (appendStringLoop (String.length s) s +:+ String dquote rest).
Proof. unfold appendString. simpl. by rewrite append_assoc. Qed.

Lemma unquote_appendString (s rest : string) :
  ValidString s = true ->
  unquote (appendStringLoop (String.length s) s +:+ String dquote rest) = Some (s, rest).
Proof.
  intros Hv. unfold unquote.
  apply unquote_appendStringLoop; [done|done|].
  rewrite append_length. lia.
Qed.

(** **** Numbers *)

Lemma formatDigits_app (fuel : nat) : forall (n : Z) (acc t : string),
  formatDigits fuel n acc +:+ t = formatDigits fuel n (acc +:+ t).
Proof.
  induction fuel as [|fuel IH]; intros n acc t; simpl; [done|].
  destruct (n <? 10); [done|]. by rewrite IH.
Qed.

Lemma isDigit_byteOf (d : Z) : 0 <= d <= 9 -> isDigit (byteOf (48 + d)) = true.
Proof.
  intros Hd. unfold isDigit. rewrite byteVal_byteOf by lia.
  apply andb_true_intro; split; apply Z.leb_le; lia.
Qed.

Lemma lexDigits_formatDigits (fuel : nat) : forall (n : Z),
  0 <= n < 2 ^ Z.of_nat fuel ->
  exists k, 0 <= k /\ forall (acc : string) (a : Z),
    lexDigits (formatDigits fuel n acc) a = lexDigits acc (a * 10 ^ k + n).
Proof.
  induction fuel as [|fuel IH]; intros n Hn.
  { exists 0. split; [lia|]. intros acc a. simpl in *.
    f_equal. lia. }
  rewrite Nat2Z.inj_succ, Z.pow_succ_r in Hn by lia.
  cbn [formatDigits].
  destruct (n <? 10) eqn:E; bools.
  - exists 1. split; [lia|]. intros acc a. cbn [lexDigits].
    rewrite isDigit_byteOf by (Z.div_mod_to_equations; lia).
    rewrite byteVal_byteOf by (Z.div_mod_to_equations; lia).
    f_equal. Z.div_mod_to_equations; lia.
  - destruct (IH (n / 10)) as (k & Hk & IHk).
    { Z.div_mod_to_equations; lia. }
    exists (k + 1). split; [lia|]. intros acc a.
    rewrite IHk. cbn [lexDigits].
    rewrite isDigit_byteOf by (Z.div_mod_to_equations; lia).
    rewrite byteVal_byteOf by (Z.div_mod_to_equations; lia).
    f_equal. rewrite Z.pow_add_r by lia.
    Z.div_mod_to_equations; lia.
Qed.

Lemma formatDigits_head (fuel : nat) : forall (n : Z) (acc : string),
  0 < n < 2 ^ Z.of_nat fuel ->
  exists c r, formatDigits fuel n acc = String c r
    /\ 49 <= byteVal c <= 57.
Proof.
  induction fuel as [|fuel IH]; intros n acc Hn.
  { simpl in Hn. lia. }
  rewrite Nat2Z.inj_succ, Z.pow_succ_r in Hn by lia.
  cbn [formatDigits].
  destruct (n <? 10) eqn:E; bools.
  - eexists _, _. split; [done|].
    rewrite byteVal_byteOf by (Z.div_mod_to_equations; lia).
    Z.div_mod_to_equations; lia.
  - apply IH. Z.div_mod_to_equations; lia.
Qed.

Lemma formatNat_fuel (n : Z) : 0 <= n -> 0 <= n < 2 ^ Z.of_nat (S (Z.to_nat (Z.log2 n))).
Proof.
  intros Hn. split; [done|].
  rewrite Nat2Z.inj_succ, Z2Nat.id by apply Z.log2_nonneg.
  destruct (Z.eq_dec n 0) as [->|]; [done|].
  apply Z.log2_spec. lia.
Qed.

Lemma lexDigits_end (t : string) (a : Z) : endsNumber t = true -> lexDigits t a = (a, t).
Proof.
  destruct t as [|c t]; [done|]. simpl. intros H. bools. by rewrite H.
Qed.

Lemma continuesNumber_end (t : string) : endsNumber t = true -> continuesNumber t = false.
Proof. destruct t as [|c t]; [done|]. unfold endsNumber. intros H. by bools. Qed.

Lemma lexNat_formatNat (n : Z) (t : string) :
  0 <= n -> endsNumber t = true ->
  lexNat (formatNat n +:+ t) = Some (n, t).
Proof.
  intros Hn Ht. unfold formatNat. rewrite formatDigits_app. simpl String.append.
  destruct (Z.eq_dec n 0) as [->|Hn0].
  { reflexivity. }
  pose proof (formatNat_fuel n Hn) as Hf.
  destruct (formatDigits_head (S (Z.to_nat (Z.log2 n))) n t ltac:(lia)) as (c & r & Heq & Hc).
  destruct (lexDigits_formatDigits _ n Hf) as (k & Hk & Hlex).
  unfold lexNat. rewrite Heq.
  destruct (Ascii.eqb_spec c "0") as [->|_]; [change (byteVal "0") with 48 in Hc; lia|].
  assert (isDigit c = true) as ->.
  { unfold isDigit. apply andb_true_intro; split; apply Z.leb_le; lia. }
  by rewrite <- Heq, Hlex, lexDigits_end.
Qed.

Lemma formatNat_head (n : Z) (t : string) :
  0 <= n -> exists c r, formatNat n +:+ t = String c r /\ 48 <= byteVal c <= 57.
Proof.
  intros Hn. unfold formatNat. rewrite formatDigits_app. simpl String.append.
  destruct (Z.eq_dec n 0) as [->|Hn0].
  { eexists _, _. split; [reflexivity|]. vm_compute. split; discriminate. }
  pose proof (formatNat_fuel n Hn) as Hf.
  destruct (formatDigits_head (S (Z.to_nat (Z.log2 n))) n t ltac:(lia)) as (c & r & Heq & Hc).
  exists c, r. split; [done|lia].
Qed.

Lemma lexInt_formatInt (z : Z) (t : string) :
  endsNumber t = true ->
  lexInt (formatInt z +:+ t) = Some (z, t).
Proof.
  intros Ht. unfold formatInt.
  destruct (z <? 0) eqn:E; bools.
  - simpl. rewrite lexNat_formatNat by (done || lia). simpl. f_equal. f_equal. lia.
  - destruct (formatNat_head z t E) as (c & r & Heq & Hc).
    unfold lexInt. rewrite Heq.
    destruct (Ascii.eqb_spec c "-") as [->|_]; [change (byteVal "-") with 45 in Hc; lia|].
    rewrite <- Heq. by apply lexNat_formatNat.
Qed.

Lemma lexNumber_formatInt (z : Z) (t : string) :
  endsNumber t = true ->
  lexNumber (formatInt z +:+ t) = Some (Number z, t).
Proof.
  intros Ht. unfold lexNumber. rewrite lexInt_formatInt by done. simpl.
  by rewrite (continuesNumber_end t Ht).
Qed.

(** The first character of an integer literal. *)
Lemma formatInt_head (z : Z) (t : string) :
  exists c r, formatInt z +:+ t = String c r
    /\ (byteVal c = 45 \/ 48 <= byteVal c <= 57).
Proof.
  unfold formatInt. destruct (z <? 0) eqn:E; bools.
  - eexists _, _. split; [reflexivity|]. by left.
  - destruct (formatNat_head z t E) as (c & r & Heq & Hc). eauto.
Qed.

(** **** Values *)

(** Induction on values, with the hypothesis for the elements of arrays and
    the members of objects. *)
Lemma value_ind' (P : value -> Prop)
    (HNull : P Null) (HBool : forall b, P (Bool b))
    (HNumber : forall z, P (Number z)) (HFloat : forall l, P (Float l))
    (HStr : forall s, P (Str s))
    (HArray : forall l, Forall P l -> P (Array l))
    (HObject : forall ms, Forall (fun kv => P (snd kv)) ms -> P (Object ms))
  : forall v, P v.
Proof.
  exact (fix IH (v : value) : P v :=
    match v with
    | Null => HNull
    | Bool b => HBool b
    | Number z => HNumber z
    | Float l => HFloat l
    | Str s => HStr s
    | Array l =>
      HArray l ((fix go (l : list value) : Forall P l :=
                   match l with
                   | [] => List.Forall_nil P
                   | x :: l' => @List.Forall_cons _ P x l' (IH x) (go l')
                   end) l)
    | Object ms =>
      HObject ms ((fix go (l : list (string * value)) : Forall (fun kv => P (snd kv)) l :=
                     match l with
                     | [] => List.Forall_nil _
                     | kv :: l' => @List.Forall_cons _ _ kv l' (IH (snd kv)) (go l')
                     end) ms)
    end).
Qed.

Lemma eqb_byteVal (c x : ascii) : byteVal c <> byteVal x -> Ascii.eqb c x = false.
Proof. intros H. destruct (Ascii.eqb_spec c x) as [->|]; done. Qed.

Lemma isSpace_byteVal (c : ascii) :
  byteVal c <> 0x20 -> byteVal c <> 0x09 -> byteVal c <> 0x0D -> byteVal c <> 0x0A ->
  isSpace c = false.
Proof.
  intros. unfold isSpace.
  repeat (apply orb_false_intro); apply Z.eqb_neq; done.
Qed.

(** The first character of the text of a value: not white space, and none
    of the brackets that close an array or an object. *)
Definition startsValue (c : ascii) : Prop :=
  isSpace c = false /\ Ascii.eqb c "]" = false /\ Ascii.eqb c "}" = false.

Lemma encode_head (v : value) (t : string) :
  wf v = true ->
  exists c r, encode v +:+ t = String c r /\ startsValue c.
Proof.
  intros Hwf.
  destruct v as [| [] | z | lit | s | [|x l] | [|kv l]]; try discriminate Hwf;
    try (eexists _, _; split; [reflexivity|]; by vm_compute).
  destruct (formatInt_head z t) as (c & r & Heq & Hc).
    exists c, r. split; [done|]. unfold startsValue.
    split; [apply isSpace_byteVal; lia|].
    split; apply eqb_byteVal;
      [change (byteVal "]") with 93|change (byteVal "}") with 125]; lia.
Qed.

Lemma skipSpace_start (c : ascii) (r : string) :
  isSpace c = false -> skipSpace (String c r) = String c r.
Proof. intros H. simpl. by rewrite H. Qed.

Lemma delimited_endsNumber (t : string) : delimited t = true -> endsNumber t = true.
Proof.
  destruct t as [|c t]; [done|]. unfold delimited, endsNumber, continuesNumber, isDigit.
  intros H. apply orb_prop in H as [H|H]; [apply orb_prop in H as [H|H]|];
    apply Ascii.eqb_eq in H; subst c; reflexivity.
Qed.

Lemma parseValue_Number (z : Z) (fuel : nat) (t : string) :
  delimited t = true ->
  parseValue (S fuel) (formatInt z +:+ t) = Some (Number z, t).
Proof.
  intros Ht.
  destruct (formatInt_head z t) as (c & r & Heq & Hc).
  pose proof (lexNumber_formatInt z t (delimited_endsNumber t Ht)) as Hlex.
  rewrite Heq in *. cbn [parseValue].
  rewrite skipSpace_start by (apply isSpace_byteVal; lia).
  rewrite !eqb_byteVal.
  - done.
  - change (byteVal "{") with 123; lia.
  - change (byteVal "[") with 91; lia.
  - change (byteVal dquote) with 34; lia.
  - change (byteVal "f") with 102; lia.
  - change (byteVal "t") with 116; lia.
  - change (byteVal "n") with 110; lia.
Qed.

Lemma parseValue_Str (s : string) (fuel : nat) (t : string) :
  ValidString s = true ->
  parseValue (S fuel) (appendString s +:+ t) = Some (Str s, t).
Proof.
  intros Hs. rewrite appendString_app. cbn [parseValue].
  rewrite skipSpace_start by done.
  change (Ascii.eqb dquote "n") with false.
  change (Ascii.eqb dquote "t") with false.
  change (Ascii.eqb dquote "f") with false.
  change (Ascii.eqb dquote dquote) with true. cbv iota.
  by rewrite unquote_appendString.
Qed.

Lemma encodeElems_cons (x : value) (l : list value) (t : string) :
  encodeElems encode (x :: l) +:+ t
  = String "," (encode x +:+ encodeElems encode l +:+ t).
Proof. cbn [encodeElems]. by rewrite !append_assoc. Qed.

Lemma encodeMembers_cons (kv : string * value) (l : list (string * value)) (t : string) :
  encodeMembers encode (kv :: l) +:+ t
  = String "," (encodeMember encode kv +:+ encodeMembers encode l +:+ t).
Proof. cbn [encodeMembers]. by rewrite !append_assoc. Qed.

Lemma encode_Array_cons (x : value) (l : list value) (t : string) :
  encode (Array (x :: l)) +:+ t
  = String "[" (encode x +:+ encodeElems encode l +:+ t).
Proof. cbn [encode]. by rewrite !append_assoc. Qed.

Lemma encode_Object_cons (kv : string * value) (l : list (string * value)) (t : string) :
  encode (Object (kv :: l)) +:+ t
  = String "{" (encodeMember encode kv +:+ encodeMembers encode l +:+ t).
Proof. cbn [encode]. by rewrite !append_assoc. Qed.

(** The elements after the first are read back, when each of them is. *)
Lemma parseElems_encode (P : value -> Prop) (l : list value) :
  forall (x : value) (fuel : nat) (t : string),
    (forall (f : nat) (u : string), delimited u = true -> (size x <= f)%nat ->
       parseValue f (encode x +:+ u) = Some (x, u)) ->
    Forall (fun y => forall (f : nat) (u : string), delimited u = true ->
       (size y <= f)%nat -> parseValue f (encode y +:+ u) = Some (y, u)) l ->
    (list_sum (map (fun y => S (size y)) (x :: l)) <= fuel)%nat ->
    parseElems fuel (encode x +:+ encodeElems encode l +:+ t) = Some (x :: l, t).
Proof.
  induction l as [|y l IH]; intros x fuel t Hx Hl Hfuel;
    (destruct fuel as [|fuel]; [simpl in Hfuel; lia|]); cbn [parseElems];
    unfold list_sum in Hfuel; cbn [fold_right map] in Hfuel.
  - rewrite Hx by (done || lia). reflexivity.
  - rewrite Hx by (done || lia).
    cbn [mbind option_bind]. rewrite encodeElems_cons.
    rewrite skipSpace_start by done.
    change (Ascii.eqb "," ",") with true. cbv iota.
    inversion Hl as [|?? Hy Hl']; subst.
    rewrite (IH y fuel t Hy Hl') by (unfold list_sum; cbn [fold_right map]; lia). done.
Qed.

Lemma parseMembers_encode (l : list (string * value)) :
  forall (kv : string * value) (fuel : nat) (t : string),
    ValidString (fst kv) = true ->
    (forall (f : nat) (u : string), delimited u = true -> (size (snd kv) <= f)%nat ->
       parseValue f (encode (snd kv) +:+ u) = Some (snd kv, u)) ->
    Forall (fun y => ValidString (fst y) = true /\
       forall (f : nat) (u : string), delimited u = true ->
       (size (snd y) <= f)%nat -> parseValue f (encode (snd y) +:+ u) = Some (snd y, u)) l ->
    (list_sum (map (fun y => S (size (snd y))) (kv :: l)) <= fuel)%nat ->
    parseMembers fuel (encodeMember encode kv +:+ encodeMembers encode l +:+ t)
    = Some (kv :: l, t).
Proof.
  induction l as [|y l IH]; intros [k x] fuel t Hk Hx Hl Hfuel;
    (destruct fuel as [|fuel]; [simpl in Hfuel; lia|]); cbn [parseMembers];
    unfold list_sum in Hfuel; cbn [fold_right map fst snd] in *;
    unfold encodeMember at 1; cbn [fst snd];
    rewrite !append_assoc, appendString_app, skipSpace_start by done;
    change (Ascii.eqb dquote dquote) with true; cbv iota;
    rewrite unquote_appendString by done;
    cbn [mbind option_bind];
    change (":" +:+ ?u) with (String ":" u);
    rewrite skipSpace_start by done;
    change (Ascii.eqb ":" ":") with true; cbv iota.
  - rewrite Hx by (done || lia). reflexivity.
  - rewrite Hx by (done || lia).
    cbn [mbind option_bind]. rewrite encodeMembers_cons.
    rewrite skipSpace_start by done.
    change (Ascii.eqb "," ",") with true. cbv iota.
    inversion Hl as [|?? [Hyk Hy] Hl']; subst.
    rewrite (IH y fuel t Hyk Hy Hl') by (unfold list_sum; cbn [fold_right map]; lia). done.
Qed.

(** The text of a value is read back as the value. *)
Lemma parseValue_encode (v : value) :
  wf v = true ->
  forall (fuel : nat) (t : string),
    delimited t = true -> (size v <= fuel)%nat ->
    parseValue fuel (encode v +:+ t) = Some (v, t).
Proof.
  induction v as [| b | z | lit | s | l IH | ms IH] using value_ind';
    intros Hwf fuel t Ht Hfuel;
    (destruct fuel as [|fuel]; [simpl in Hfuel; lia|]).
  - reflexivity.
  - destruct b; reflexivity.
  - by apply parseValue_Number.
  - discriminate Hwf.
  - by apply parseValue_Str.
  - destruct l as [|x l]; [reflexivity|].
    rewrite encode_Array_cons. cbn [parseValue].
    rewrite skipSpace_start by done.
    change (Ascii.eqb "[" "n") with false.
    change (Ascii.eqb "[" "t") with false.
    change (Ascii.eqb "[" "f") with false.
    change (Ascii.eqb "[" dquote) with false.
    change (Ascii.eqb "[" "[") with true. cbv iota.
    cbn [wf forallb] in Hwf. apply andb_prop in Hwf as [Hwx Hwl].
    destruct (encode_head x (encodeElems encode l +:+ t) Hwx)
      as (c & r & Heq & Hs & Hc & _).
    rewrite Heq, skipSpace_start, Hc, <- Heq by done.
    inversion IH as [|?? IHx IHl]; subst.
    rewrite (parseElems_encode (fun _ => True) l x fuel t); [done| | |].
    + intros f u Hu Hf. by apply IHx.
    + rewrite forallb_forall in Hwl. rewrite Forall_forall in IHl |- *.
      intros y Hy f u Hu Hf. apply IHl; [done| |done|done].
      apply Hwl. by apply list_elem_of_In.
    + cbn [size] in Hfuel. unfold list_sum in *. cbn [fold_right map] in *. lia.
  - destruct ms as [|[k x] ms]; [reflexivity|].
    rewrite encode_Object_cons. cbn [parseValue].
    rewrite skipSpace_start by done.
    change (Ascii.eqb "{" "n") with false.
    change (Ascii.eqb "{" "t") with false.
    change (Ascii.eqb "{" "f") with false.
    change (Ascii.eqb "{" dquote) with false.
    change (Ascii.eqb "{" "[") with false.
    change (Ascii.eqb "{" "{") with true. cbv iota.
    cbn [wf forallb fst snd] in Hwf.
    apply andb_prop in Hwf as [Hwx Hwl]. apply andb_prop in Hwx as [Hwk Hwx].
    inversion IH as [|?? IHx IHl]; subst. cbn [snd] in IHx.
    assert (exists r, encodeMember encode (k, x) +:+ encodeMembers encode ms +:+ t
                      = String dquote r) as [r Heq].
    { unfold encodeMember. cbn [fst]. rewrite append_assoc, appendString_app. eauto. }
    rewrite Heq, skipSpace_start by done.
    change (Ascii.eqb dquote "}") with false. cbv iota. rewrite <- Heq.
    rewrite (parseMembers_encode ms (k, x) fuel t); [done|done| | |].
    + intros f u Hu Hf. by apply IHx.
    + rewrite forallb_forall in Hwl. rewrite Forall_forall in IHl |- *.
      intros y Hy. pose proof Hy as Hwy.
      apply list_elem_of_In, Hwl, andb_prop in Hwy as [Hyk Hyv]. split; [done|].
      intros f u Hu Hf. by apply IHl.
    + cbn [size] in Hfuel. unfold list_sum in *. cbn [fold_right map] in *. lia.
Qed.

Lemma size_encodeElems (l : list value) :
  Forall (fun y => (size y <= String.length (encode y))%nat) l ->
  (S (list_sum (map (fun y => S (size y)) l)) <= String.length (encodeElems encode l))%nat.
Proof.
  induction 1 as [|y l Hy Hl IH]; [simpl; lia|].
  cbn [encodeElems map]. unfold list_sum in *. cbn [fold_right].
  change ("," +:+ ?u) with (String "," u). cbn [String.length].
  rewrite append_length. lia.
Qed.

Lemma size_encodeMembers (l : list (string * value)) :
  Forall (fun y => (size (snd y) <= String.length (encode (snd y)))%nat) l ->
  (S (list_sum (map (fun y => S (size (snd y))) l))
   <= String.length (encodeMembers encode l))%nat.
Proof.
  induction 1 as [|y l Hy Hl IH]; [simpl; lia|].
  cbn [encodeMembers map]. unfold list_sum in *. cbn [fold_right].
  change ("," +:+ ?u) with (String "," u). cbn [String.length].
  unfold encodeMember. rewrite !append_length. lia.
Qed.

(** The fuel that [decode] gives is enough for the text of any value. *)
Lemma size_le_length (v : value) :
  wf v = true -> (size v <= String.length (encode v))%nat.
Proof.
  induction v as [| b | z | lit | s | l IH | ms IH] using value_ind'; intros Hwf.
  - simpl. lia.
  - destruct b; simpl; lia.
  - destruct (formatInt_head z EmptyString) as (c & r & Heq & _).
    rewrite append_nil_r in Heq. cbn [encode size]. rewrite Heq. simpl. lia.
  - discriminate Hwf.
  - simpl. lia.
  - destruct l as [|x l]; [simpl; lia|].
    cbn [wf forallb] in Hwf. apply andb_prop in Hwf as [Hwx Hwl].
    inversion IH as [|?? IHx IHl]; subst.
    assert (Forall (fun y => (size y <= String.length (encode y))%nat) l) as Hl.
    { rewrite forallb_forall in Hwl. rewrite Forall_forall in IHl |- *.
      intros y Hy. apply IHl; [done|]. apply Hwl. by apply list_elem_of_In. }
    pose proof (size_encodeElems l Hl). specialize (IHx Hwx).
    cbn [encode size map]. unfold list_sum in *. cbn [fold_right].
    change ("[" +:+ ?u) with (String "[" u). cbn [String.length].
    rewrite append_length. lia.
  - destruct ms as [|[k x] ms]; [simpl; lia|].
    cbn [wf forallb fst snd] in Hwf.
    apply andb_prop in Hwf as [Hwx Hwl]. apply andb_prop in Hwx as [_ Hwx].
    inversion IH as [|?? IHx IHl]; subst. cbn [snd] in IHx.
    assert (Forall (fun y => (size (snd y) <= String.length (encode (snd y)))%nat) ms)
      as Hl.
    { rewrite forallb_forall in Hwl. rewrite Forall_forall in IHl |- *.
      intros y Hy. apply IHl; [done|].
      apply list_elem_of_In, Hwl, andb_prop in Hy as [_ Hy]. exact Hy. }
    pose proof (size_encodeMembers ms Hl). specialize (IHx Hwx).
    cbn [encode size map snd]. unfold list_sum in *. cbn [fold_right].
    change ("{" +:+ ?u) with (String "{" u). cbn [String.length].
    unfold encodeMember. cbn [snd]. rewrite !append_length. lia.
Qed.

(** Round trip of the library: the text written for a value whose strings
    are UTF-8 is read back as that value. *)
Theorem decode_encode (v : value) : wf v = true -> decode (encode v) = Some v.
Proof.
  intros Hwf. unfold decode.
  rewrite <- (append_nil_r (encode v)) at 2.
  rewrite (parseValue_encode v Hwf) by (done || (pose proof (size_le_length v Hwf); lia)).
  reflexivity.
Qed.
End json_facts.

(** ** The encoding of the spec is read back *)

Lemma wf_omitEmptyString (k s : string) :
  utf8.ValidString k = true -> validText s ->
  forallb (fun kv => utf8.ValidString (fst kv) && json.wf (snd kv)) (omitEmptyString k s) = true.
Proof.
  intros Hk Hs. unfold omitEmptyString. destruct (String.eqb s ""); simpl; [done|].
  by rewrite Hk, Hs.
Qed.

(** The comparisons of a key with the field names are closed terms. *)
Ltac fold_keys :=
  repeat match goal with
  | |- context [equalFold ?a ?b] =>
    let v := eval vm_compute in (equalFold a b) in
    change (equalFold a b) with v
  end; cbv iota.

Lemma ConfigRef_roundtrip (c : ConfigRef) :
  validConfigRef c ->
  json.wf (toJSON c) = true /\ toJSON c ≠ json.Null /\ decodeInto (toJSON c) zeroValue = Ok c.
Proof.
  destruct c as [n k v]. intros (Hn & Hk & Hv). simpl in *.
  split; [|split; [done|]].
  - unfold ConfigRef_toJSON. cbn [json.wf forallb fst snd ConfigRef_Kind ConfigRef_Name ConfigRef_Value app].
    rewrite Hn, Hk. change (utf8.ValidString "kind") with true.
    change (utf8.ValidString "name") with true. simpl.
    by apply wf_omitEmptyString.
  - unfold ConfigRef_toJSON, decodeStruct, omitEmptyString. simpl.
    destruct (String.eqb_spec v "") as [->|Hne]; reflexivity.
Qed.

Lemma TLSSecret_roundtrip (t : TLSSecret) :
  validTLSSecret t ->
  json.wf (toJSON t) = true /\ toJSON t ≠ json.Null /\ decodeInto (toJSON t) zeroValue = Ok t.
Proof.
  destruct t as [n kf cf kp cp]. intros (Hn & Hkf & Hcf & Hkp & Hcp). simpl in *.
  split; [|split; [done|]].
  - unfold TLSSecret_toJSON. cbn [json.wf TLSSecret_SecretName TLSSecret_KeyField
      TLSSecret_CertificateField TLSSecret_KeyPath TLSSecret_CertificatePath].
    rewrite !forallb_app. cbn [forallb fst snd json.wf].
    rewrite Hn. change (utf8.ValidString "secretName") with true.
    rewrite !wf_omitEmptyString; done.
  - unfold TLSSecret_toJSON, decodeStruct, omitEmptyString. simpl.
    destruct (String.eqb_spec kf "") as [->|?];
    destruct (String.eqb_spec cf "") as [->|?];
    destruct (String.eqb_spec kp "") as [->|?];
    destruct (String.eqb_spec cp "") as [->|?]; reflexivity.
Qed.

Section Properties.

Context {ResourceRequirements Affinity : Type}.
Context `{!GoJSON ResourceRequirements, !GoJSON Affinity}.
Variables ConfigKindConfigMap ConfigKindInline : string.

Local Abbreviation NginxSpec := (NginxSpec ResourceRequirements Affinity).
Local Abbreviation Nginx := (Nginx ResourceRequirements Affinity).
Local Abbreviation Deployment := (Deployment ResourceRequirements Affinity).
Local Abbreviation NewDeployment := (NewDeployment ConfigKindConfigMap ConfigKindInline).
Local Abbreviation setupConfig := (setupConfig ConfigKindConfigMap ConfigKindInline).
Local Abbreviation ExtractNginxSpec :=
  (@ExtractNginxSpec ResourceRequirements Affinity _ _).
Local Abbreviation SetNginxSpec := (@SetNginxSpec ResourceRequirements Affinity _ _).

Lemma decodePtr_encodable {T} `{GoJSON T} (a : T) :
  encodable a -> decodePtr (toJSON a) None = Ok (Some a).
Proof.
  intros (_ & Hnull & Hdec). unfold decodePtr. simpl.
  destruct (toJSON a); try done; by rewrite Hdec.
Qed.

Lemma NginxPodTemplateSpec_roundtrip
    (p : NginxPodTemplateSpec ResourceRequirements Affinity) :
  encodable (NginxPodTemplateSpec_Resources p) ->
  (forall a, NginxPodTemplateSpec_Affinity p = Some a -> encodable a) ->
  encodable p.
Proof.
  destruct p as [a r]. simpl. intros (Hrw & Hrn & Hrd) Ha.
  split; [|split; [done|]].
  - simpl. unfold NginxPodTemplateSpec_toJSON. simpl.
    destruct a as [a|]; simpl.
    + destruct (Ha a eq_refl) as (-> & _). by rewrite Hrw.
    + by rewrite Hrw.
  - simpl. unfold NginxPodTemplateSpec_toJSON, decodeStruct. simpl.
    unfold NginxPodTemplateSpec_field. fold_keys.
    destruct a as [a|]; cbn [omitNil app decodeMembers]; fold_keys;
      cbn [NginxPodTemplateSpec_Affinity NginxPodTemplateSpec_Resources].
    + rewrite (decodePtr_encodable a (Ha a eq_refl)). simpl. fold_keys.
      by rewrite Hrd.
    + by rewrite Hrd.
Qed.

Lemma NginxSpec_wf (s : NginxSpec) : validSpec s -> json.wf (toJSON s) = true.
Proof.
  destruct s as [rep im conf tls pt].
  intros (Him & Hrep & Hconf & Htls & Hres & Haff). simpl in *.
  pose proof (NginxPodTemplateSpec_roundtrip pt Hres Haff) as (Hpw & Hpn & Hpd).
  change (toJSON pt) with (NginxPodTemplateSpec_toJSON pt) in *.
  unfold NginxSpec_toJSON. cbn [json.wf NginxSpec_Image NginxSpec_Replicas
      NginxSpec_PodTemplate NginxSpec_Config NginxSpec_TLSSecret].
  rewrite !forallb_app. rewrite wf_omitEmptyString by done.
  cbn [forallb fst snd]. rewrite Hpw, ?forallb_app.
  assert (forallb (fun kv => utf8.ValidString kv.1 && json.wf kv.2)
            (omitNil "configRef" ConfigRef_toJSON conf) = true) as ->.
  { destruct conf as [c|]; [|done]. simpl.
    destruct (ConfigRef_roundtrip c (Hconf c eq_refl)) as (Hc & _).
    simpl in Hc. by rewrite Hc. }
  assert (forallb (fun kv => utf8.ValidString kv.1 && json.wf kv.2)
            (omitNil "tlsRef" TLSSecret_toJSON tls) = true) as ->.
  { destruct tls as [t|]; [|done]. simpl.
    destruct (TLSSecret_roundtrip t (Htls t eq_refl)) as (Ht & _).
    simpl in Ht. by rewrite Ht. }
  by destruct rep.
Qed.

Lemma decodeMembers_app {T} (field : string -> json.value -> T -> result T)
    (ms1 ms2 : list (string * json.value)) (a : T) :
  decodeMembers field (ms1 ++ ms2) a
  = (b ← decodeMembers field ms1 a; decodeMembers field ms2 b).
Proof.
  revert a; induction ms1 as [|[k v] ms1 IH]; intros a; simpl; [done|].
  destruct (field k v a); simpl; [apply IH|done].
Qed.

Lemma NginxSpec_decode (s : NginxSpec) :
  validSpec s -> decodeInto (toJSON s) zeroValue = Ok s.
Proof.
  destruct s as [rep im conf tls pt].
  intros (Him & Hrep & Hconf & Htls & Hres & Haff). cbn [NginxSpec_Image
    NginxSpec_Replicas NginxSpec_PodTemplate NginxSpec_Config NginxSpec_TLSSecret] in *.
  pose proof (NginxPodTemplateSpec_roundtrip pt Hres Haff) as (_ & _ & Hpd).
  assert (forall s0 : NginxSpec,
    decodeMembers NginxSpec_field (omitEmptyString "image" im) s0
    = Ok (NginxSpec_setImage s0 (if String.eqb im "" then NginxSpec_Image s0 else im)))
    as Himage.
  { intros s0. unfold omitEmptyString.
    destruct (String.eqb im ""); [by destruct s0|reflexivity]. }
  assert (forall s0 : NginxSpec,
    decodeMembers NginxSpec_field (omitNil "replicas" json.Number rep) s0
    = Ok (NginxSpec_setReplicas s0 (match rep with Some _ => rep | None => NginxSpec_Replicas s0 end)))
    as Hreplicas.
  { intros s0. destruct rep as [z|]; cbn [omitNil decodeMembers]; [|by destruct s0].
    unfold NginxSpec_field. fold_keys. simpl. by rewrite (Hrep z eq_refl). }
  assert (forall s0 : NginxSpec,
    NginxSpec_PodTemplate s0 = zeroValue ->
    NginxSpec_field "podTemplate" (toJSON pt) s0 = Ok (NginxSpec_setPodTemplate s0 pt))
    as Htemplate.
  { intros s0 Hs0. unfold NginxSpec_field. fold_keys. by rewrite Hs0, Hpd. }
  assert (forall s0 : NginxSpec,
    NginxSpec_Config s0 = None ->
    decodeMembers NginxSpec_field (omitNil "configRef" toJSON conf) s0
    = Ok (NginxSpec_setConfig s0 conf)) as Hconfig.
  { intros s0 Hs0. destruct conf as [c|]; cbn [omitNil decodeMembers].
    - unfold NginxSpec_field. fold_keys. rewrite Hs0.
      rewrite (decodePtr_encodable c (ConfigRef_roundtrip c (Hconf c eq_refl))). done.
    - destruct s0; simpl in *; by subst. }
  assert (forall s0 : NginxSpec,
    NginxSpec_TLSSecret s0 = None ->
    decodeMembers NginxSpec_field (omitNil "tlsRef" toJSON tls) s0
    = Ok (NginxSpec_setTLSSecret s0 tls)) as Hsecret.
  { intros s0 Hs0. destruct tls as [t|]; cbn [omitNil decodeMembers].
    - unfold NginxSpec_field. fold_keys. rewrite Hs0.
      rewrite (decodePtr_encodable t (TLSSecret_roundtrip t (Htls t eq_refl))). done.
    - destruct s0; simpl in *; by subst. }
  change (decodeInto (toJSON ?x) zeroValue)
    with (decodeMembers (@NginxSpec_field ResourceRequirements Affinity _ _)
            (omitEmptyString "image" im ++ omitNil "replicas" json.Number rep
             ++ [("podTemplate", toJSON pt)] ++ omitNil "configRef" toJSON conf
             ++ omitNil "tlsRef" toJSON tls) (zeroValue : NginxSpec)).
  rewrite decodeMembers_app, Himage. cbn [mbind result_bind].
  rewrite decodeMembers_app, Hreplicas. cbn [mbind result_bind].
  rewrite decodeMembers_app. cbn [decodeMembers].
  rewrite Htemplate by done. cbn [mbind result_bind].
  rewrite decodeMembers_app, Hconfig by done. cbn [mbind result_bind].
  rewrite Hsecret by done.
  destruct rep; destruct (String.eqb_spec im "") as [->|?]; reflexivity.
Qed.

(** A valid spec is read back from its encoding. *)
Lemma NginxSpec_roundtrip (s : NginxSpec) : validSpec s -> encodable s.
Proof.
  intros Hs. split; [by apply NginxSpec_wf|]. split; [done|]. by apply NginxSpec_decode.
Qed.

Lemma Unmarshal_Marshal (s : NginxSpec) :
  validSpec s ->
  exists data, Marshal s = Ok data /\ Unmarshal data (zeroValue : NginxSpec) = Ok s.
Proof.
  intros Hs. destruct (NginxSpec_roundtrip s Hs) as (Hwf & _ & Hdec).
  eexists. split; [reflexivity|]. unfold Unmarshal.
  by rewrite (json_facts.decode_encode _ Hwf).
Qed.


(** ** The builders *)

Lemma valueOrDefault_orElse (value def : string) : valueOrDefault value def = orElse value def.
Proof. unfold valueOrDefault, orElse. by destruct (String.eqb value ""). Qed.

Lemma orElse_nonempty (s d : string) : d ≠ "" -> orElse s d ≠ "".
Proof.
  unfold orElse. destruct (String.eqb_spec s "") as [->|?]; done.
Qed.

Lemma orElse_idem (s d d' : string) : d ≠ "" -> orElse (orElse s d) d' = orElse s d.
Proof.
  intros Hd. unfold orElse at 1.
  destruct (String.eqb_spec (orElse s d) "") as [He|?]; [|done].
  by apply orElse_nonempty in He.
Qed.

#[local] Arguments json.encode : simpl never.
#[local] Arguments toJSON : simpl never.
#[local] Arguments valueOrDefault : simpl never.
#[local] Arguments LabelsForNginx : simpl never.
#[local] Arguments NewControllerRef : simpl never.

(** [NewDeployment] on a resource taken apart by its optional parts. *)
Ltac run_NewDeployment :=
  unfold NewDeployment, setupConfig, setupTLS, assignContainer0, SetNginxSpec, Marshal;
  cbn [Nginx_Spec Nginx_setSpec NginxSpec_Config NginxSpec_TLSSecret NginxSpec_setImage
       NginxSpec_setTLSSecret NginxSpec_Image NginxSpec_Replicas NginxSpec_PodTemplate
       Nginx_ObjectMeta Nginx_TypeMeta].

Ltac cases_NewDeployment :=
  run_NewDeployment;
  repeat match goal with
  | |- context [match ?x with Some _ => _ | None => _ end] =>
    is_var x; destruct x
  | |- context [String.eqb (ConfigRef_Kind ?c) ?k] =>
    destruct (String.eqb_spec (ConfigRef_Kind c) k)
  end; cbn.

(** Claim C4.  [NewDeployment] succeeds on every resource, whatever its
    identity: it returns no error and does not panic, and the deployment it
    returns carries the owner reference built from the name and UID of the
    resource.  Building the owner reference cannot fail, and the one error
    that [NewDeployment] passes on, that of [SetNginxSpec], does not arise. *)
Theorem NewDeployment_succeeds (n : Nginx) :
  exists n' d,
    NewDeployment n = Some (n', Ok d)
    /\ ObjectMeta_OwnerReferences (Deployment_ObjectMeta d)
       = [ {| OwnerReference_APIVersion := "nginx.tsuru.io/v1alpha1";
              OwnerReference_Kind := "Nginx";
              OwnerReference_Name := ObjectMeta_Name (Nginx_ObjectMeta n);
              OwnerReference_UID := ObjectMeta_UID (Nginx_ObjectMeta n);
              OwnerReference_Controller := Some true;
              OwnerReference_BlockOwnerDeletion := Some true |} ].
Proof.
  destruct n as [tm om [rep im conf tls pt]].
  cases_NewDeployment; (eexists _, _; split; [reflexivity|reflexivity]).
Qed.

(** What [NewDeployment] leaves in the resource is the normalized spec of
    the specification. *)
Lemma NewDeployment_normalizes (n : Nginx) :
  exists d, NewDeployment n = Some (Nginx_setSpec n (normalize (Nginx_Spec n)), Ok d).
Proof.
  destruct n as [tm om [rep im conf tls pt]].
  unfold normalize, normalizeTLS.
  cases_NewDeployment; rewrite ?valueOrDefault_orElse; (eexists; reflexivity).
Qed.

(** Claim C3.  The service of [NewService] has the HTTP port, and the HTTPS
    port 443 as a second port exactly when the TLS secret is not nil; the
    deployment of [NewDeployment] has exactly one container, whose one
    readiness probe targets the [https] port with scheme HTTPS when the TLS
    secret is not nil and the [http] port with scheme HTTP otherwise, and
    whose ports are 80, followed by 443 exactly when the TLS secret is not
    nil. *)
Theorem tls_presence (n : Nginx) :
  let http := {| ServicePort_Name := "http"; ServicePort_Protocol := "TCP";
                 ServicePort_TargetPort := FromString "http"; ServicePort_Port := 80 |} in
  let https := {| ServicePort_Name := "https"; ServicePort_Protocol := "TCP";
                  ServicePort_TargetPort := FromString "https"; ServicePort_Port := 443 |} in
  let probe scheme port :=
    {| Probe_Handler :=
         {| Handler_HTTPGet :=
              Some {| HTTPGetAction_Path := "/"; HTTPGetAction_Port := FromString port;
                      HTTPGetAction_Scheme := scheme |} |} |} in
  let tls := NginxSpec_TLSSecret (Nginx_Spec n) in
  ServiceSpec_Ports (Service_Spec (NewService n))
    = (if tls is Some _ then [http; https] else [http])
  /\ (length (ServiceSpec_Ports (Service_Spec (NewService n))) = 2%nat <-> tls ≠ None)
  /\ exists n' d c,
       NewDeployment n = Some (n', Ok d)
       /\ Deployment_Containers d = [c]
       /\ Container_ReadinessProbe c
          = Some (if tls is Some _ then probe "HTTPS" "https" else probe "HTTP" "http")
       /\ Container_Ports c
          = {| ContainerPort_Name := "http"; ContainerPort_ContainerPort := 80;
               ContainerPort_Protocol := "TCP" |}
            :: (if tls is Some _
                then [ {| ContainerPort_Name := "https"; ContainerPort_ContainerPort := 443;
                          ContainerPort_Protocol := "TCP" |} ]
                else []).
Proof.
  destruct n as [tm om [rep im conf tls pt]]. cbn zeta.
  split; [by destruct tls|]. split; [destruct tls; simpl; split; (done || lia)|].
  cases_NewDeployment; (eexists _, _, _; repeat split; reflexivity).
Qed.

(** Claim C5.  The labels of the pod template, the match labels of the
    selector of the deployment and the selector of the service are all the
    map with [nginx_cr] bound to the name of the resource and [app] bound to
    [nginx]. *)
Theorem labels_consistent (n : Nginx) :
  let labels : stringMap :=
    Some {[ "nginx_cr" := ObjectMeta_Name (Nginx_ObjectMeta n); "app" := "nginx" ]} in
  exists n' d,
    NewDeployment n = Some (n', Ok d)
    /\ ObjectMeta_Labels (PodTemplateSpec_ObjectMeta (Deployment_Template d)) = labels
    /\ LabelSelector_MatchLabels <$> DeploymentSpec_Selector (Deployment_Spec d)
       = Some labels
    /\ ServiceSpec_Selector (Service_Spec (NewService n)) = labels.
Proof.
  destruct n as [tm om [rep im conf tls pt]]. cbn zeta.
  cases_NewDeployment; (eexists _, _; repeat split; reflexivity).
Qed.

(** Claim C7.  In the spec that [NewDeployment] leaves in the resource, an
    empty image has become [nginx:latest]; of a TLS secret, an empty key
    field has become [tls.key], an empty certificate field [tls.crt], an
    empty key path the resolved key field and an empty certificate path the
    resolved certificate field; fields that were not empty, and all other
    fields, are as they were. *)
Theorem normalization_defaults (n : Nginx) :
  exists n' r,
    NewDeployment n = Some (n', r)
    /\ let s := Nginx_Spec n in
       let s' := Nginx_Spec n' in
       (NginxSpec_Image s = "" -> NginxSpec_Image s' = "nginx:latest")
       /\ (NginxSpec_Image s ≠ "" -> NginxSpec_Image s' = NginxSpec_Image s)
       /\ NginxSpec_Replicas s' = NginxSpec_Replicas s
       /\ NginxSpec_Config s' = NginxSpec_Config s
       /\ NginxSpec_PodTemplate s' = NginxSpec_PodTemplate s
       /\ (NginxSpec_TLSSecret s = None -> NginxSpec_TLSSecret s' = None)
       /\ forall t, NginxSpec_TLSSecret s = Some t ->
            exists t', NginxSpec_TLSSecret s' = Some t'
              /\ TLSSecret_SecretName t' = TLSSecret_SecretName t
              /\ (TLSSecret_KeyField t = "" -> TLSSecret_KeyField t' = "tls.key")
              /\ (TLSSecret_KeyField t ≠ "" -> TLSSecret_KeyField t' = TLSSecret_KeyField t)
              /\ (TLSSecret_CertificateField t = "" ->
                    TLSSecret_CertificateField t' = "tls.crt")
              /\ (TLSSecret_CertificateField t ≠ "" ->
                    TLSSecret_CertificateField t' = TLSSecret_CertificateField t)
              /\ (TLSSecret_KeyPath t = "" -> TLSSecret_KeyPath t' = TLSSecret_KeyField t')
              /\ (TLSSecret_KeyPath t ≠ "" -> TLSSecret_KeyPath t' = TLSSecret_KeyPath t)
              /\ (TLSSecret_CertificatePath t = "" ->
                    TLSSecret_CertificatePath t' = TLSSecret_CertificateField t')
              /\ (TLSSecret_CertificatePath t ≠ "" ->
                    TLSSecret_CertificatePath t' = TLSSecret_CertificatePath t).
Proof.
  destruct (NewDeployment_normalizes n) as [d Hd].
  eexists _, _. split; [exact Hd|]. cbn zeta.
  destruct n as [tm om [rep im conf tls pt]].
  cbn [Nginx_Spec Nginx_setSpec normalize NginxSpec_Image NginxSpec_Replicas
       NginxSpec_Config NginxSpec_PodTemplate NginxSpec_TLSSecret].
  assert (forall s d, s = "" -> orElse s d = d) as Hempty by (by intros ?? ->).
  assert (forall s d, s ≠ "" -> orElse s d = s) as Hfull.
  { intros s0 d0 Hs. unfold orElse. by destruct (String.eqb_spec s0 ""). }
  repeat split; auto.
  - by intros ->.
  - intros t ->. eexists. split; [reflexivity|]. destruct t; simpl. repeat split; auto.
Qed.

(** Claim C9.  A second call of [NewDeployment] and [NewService] on the
    resource as the first call left it returns the same deployment and the
    same service, and leaves the resource as it is. *)
Theorem reconcile_idempotent (n : Nginx) :
  exists n1 d1,
    NewDeployment n = Some (n1, Ok d1)
    /\ NewDeployment n1 = Some (n1, Ok d1)
    /\ NewService n1 = NewService n.
Proof.
  destruct n as [tm om [rep im conf tls pt]].
  assert (forall s d d', d ≠ "" ->
    valueOrDefault (valueOrDefault s d) d' = valueOrDefault s d) as Hidem.
  { intros. rewrite !valueOrDefault_orElse. by apply orElse_idem. }
  assert (forall s d, d ≠ "" -> valueOrDefault s d ≠ "") as Hne.
  { intros. rewrite valueOrDefault_orElse. by apply orElse_nonempty. }
  cases_NewDeployment; (eexists _, _; split; [reflexivity|]); split; try reflexivity.
  all: cases_NewDeployment; try done.
  all: rewrite ?Hidem by (done || (apply Hne; done)); reflexivity.
Qed.

(** Claim C8.  For a configRef that is not nil, [setupConfig] appends the
    volume mount [nginx-config] at [/etc/nginx] to the first container,
    whatever the kind; when the kind is neither of the two it knows, it
    returns with the volumes and the annotations of the pod template
    untouched. *)
Theorem setupConfig_mount (conf : ConfigRef) (dep : Deployment)
    (c : Container ResourceRequirements) (cs : list (Container ResourceRequirements)) :
  Deployment_Containers dep = c :: cs ->
  exists dep',
    setupConfig (Some conf) dep = Some dep'
    /\ Deployment_Containers dep'
       = {| Container_Name := Container_Name c;
            Container_Image := Container_Image c;
            Container_Ports := Container_Ports c;
            Container_Resources := Container_Resources c;
            Container_ReadinessProbe := Container_ReadinessProbe c;
            Container_VolumeMounts :=
              Container_VolumeMounts c
              ++ [ {| VolumeMount_Name := "nginx-config";
                      VolumeMount_MountPath := "/etc/nginx" |} ] |} :: cs
    /\ (ConfigRef_Kind conf ≠ ConfigKindConfigMap ->
        ConfigRef_Kind conf ≠ ConfigKindInline ->
        Deployment_Volumes dep' = Deployment_Volumes dep
        /\ Deployment_TemplateAnnotations dep' = Deployment_TemplateAnnotations dep).
Proof.
  intros Hc. unfold setupConfig, assignContainer0. rewrite Hc. cbn [mbind option_bind].
  destruct dep as [tm om [rep sel [[tn tns tu tl ta tow] [cs0 vs aff]]]]. cbn in Hc.
  destruct (String.eqb_spec (ConfigRef_Kind conf) ConfigKindConfigMap) as [?|?];
    [|destruct (String.eqb_spec (ConfigRef_Kind conf) ConfigKindInline) as [?|?]];
    try destruct ta;
    (eexists; split; [reflexivity|]); split; try reflexivity; try done.
Qed.

(** Claim C10.  For a spec whose configRef has the inline kind, with name N
    and value V, the pod template of the deployment has the annotation N
    with value V, its first volume is [nginx-config], a downward-API volume
    with the one file [nginx.conf] taken from [metadata.annotations['N']],
    and the container mounts [nginx-config] at [/etc/nginx]. *)
Theorem inline_config (n : Nginx) (conf : ConfigRef) :
  ConfigKindConfigMap ≠ ConfigKindInline ->
  NginxSpec_Config (Nginx_Spec n) = Some conf ->
  ConfigRef_Kind conf = ConfigKindInline ->
  exists n' d c mounts volumes,
    NewDeployment n = Some (n', Ok d)
    /\ Deployment_TemplateAnnotations d
       = Some {[ ConfigRef_Name conf := ConfigRef_Value conf ]}
    /\ Deployment_Volumes d
       = {| Volume_Name := "nginx-config";
            Volume_VolumeSource :=
              {| VolumeSource_ConfigMap := None;
                 VolumeSource_DownwardAPI :=
                   Some {| DownwardAPIVolumeSource_Items :=
                             [ {| DownwardAPIVolumeFile_Path := "nginx.conf";
                                  DownwardAPIVolumeFile_FieldRef :=
                                    Some {| ObjectFieldSelector_FieldPath :=
                                              "metadata.annotations['"
                                              +:+ ConfigRef_Name conf +:+ "']" |} |} ] |};
                 VolumeSource_Secret := None |} |} :: volumes
    /\ Deployment_Containers d = [c]
    /\ Container_VolumeMounts c
       = {| VolumeMount_Name := "nginx-config"; VolumeMount_MountPath := "/etc/nginx" |}
         :: mounts.
Proof.
  intros Hne. destruct n as [tm om [rep im conf' tls pt]]. simpl.
  intros [= ->] Hkind. subst ConfigKindInline.
  cases_NewDeployment; try done;
    (eexists _, _, _, _, _; split; [reflexivity|]); repeat split; try reflexivity.
Qed.

(** Claim C6.  [ExtractNginxSpec] returns an error with the message
    [missing "nginx.tsuru.io/generated-from" annotation in deployment] when
    the object has no such annotation, and an error whose message starts
    [failed to unmarshal nginx from annotation: ] when the annotation is
    there and [json.Unmarshal] fails on it; no message of the second kind is
    the message of the first. *)
Theorem ExtractNginxSpec_errors (o : ObjectMeta) :
  let missing : error :=
    "missing " +:+ String dquote "nginx.tsuru.io/generated-from"
    +:+ String dquote " annotation in deployment" in
  let annotation := mapIndex (ObjectMeta_Annotations o) "nginx.tsuru.io/generated-from" in
  (annotation = None -> ExtractNginxSpec o = Err missing)
  /\ (forall ann err,
        annotation = Some ann ->
        Unmarshal ann (zeroValue : NginxSpec) = Err err ->
        ExtractNginxSpec o = Err ("failed to unmarshal nginx from annotation: " +:+ err))
  /\ (forall err : error,
        "failed to unmarshal nginx from annotation: " +:+ err ≠ missing).
Proof.
  cbn zeta. unfold ExtractNginxSpec.
  change generatedFromAnnotation with "nginx.tsuru.io/generated-from".
  repeat split.
  - by intros ->.
  - intros ann err -> Herr. by rewrite Herr.
  - intros err. simpl. discriminate.
Qed.

Lemma validText_orElse (s d : string) : validText s -> validText d -> validText (orElse s d).
Proof. intros. unfold orElse. by destruct (String.eqb s ""). Qed.

Lemma validSpec_normalize (s : NginxSpec) : validSpec s -> validSpec (normalize s).
Proof.
  destruct s as [rep im conf tls pt].
  intros (Him & Hrep & Hconf & Htls & Hres & Haff).
  unfold validSpec, normalize.
  cbn [NginxSpec_Image NginxSpec_Replicas NginxSpec_Config NginxSpec_TLSSecret
       NginxSpec_PodTemplate] in *.
  refine (conj _ (conj Hrep (conj Hconf (conj _ (conj Hres Haff))))).
  - by apply validText_orElse.
  - intros t' Ht'. destruct tls as [t|]; [|done]. injection Ht' as <-.
    destruct (Htls t eq_refl) as (? & ? & ? & ? & ?).
    unfold normalizeTLS, validTLSSecret.
    cbn [TLSSecret_SecretName TLSSecret_KeyField TLSSecret_CertificateField
         TLSSecret_KeyPath TLSSecret_CertificatePath].
    assert (validText "tls.key") by reflexivity.
    assert (validText "tls.crt") by reflexivity.
    auto 10 using validText_orElse.
Qed.

Lemma mapIndex_assign (m : gmap string string) (k v : string) :
  mapIndex (Some (<[k := v]> m)) k = Some v.
Proof. unfold mapIndex. simpl. apply lookup_insert_eq. Qed.

(** What [SetNginxSpec] writes, [ExtractNginxSpec] reads. *)
Lemma Extract_Set (o : ObjectMeta) (spec : NginxSpec) :
  validSpec spec ->
  exists o', SetNginxSpec o spec = (o', None) /\ ExtractNginxSpec o' = Ok spec.
Proof.
  intros Hv. destruct (Unmarshal_Marshal spec Hv) as (data & HM & HU).
  unfold SetNginxSpec, ExtractNginxSpec. rewrite HM.
  eexists. split; [reflexivity|].
  cbn [ObjectMeta_Annotations ObjectMeta_setAnnotations].
  rewrite mapIndex_assign. by rewrite HU.
Qed.

(** Claim C1, as amended.  For a spec whose strings are UTF-8, whose
    replica count is an [int32] and whose pod template overrides are read
    back unchanged from their own encoding, [ExtractNginxSpec] on the object
    in which [SetNginxSpec] has stored the normalized spec returns the
    normalized spec: decode (encode (normalize spec)) = normalize spec.
    Nothing is said of overrides that their encoding does not give back. *)
Theorem spec_roundtrip (o : ObjectMeta) (spec : NginxSpec) :
  validSpec spec ->
  exists o',
    SetNginxSpec o (normalize spec) = (o', None)
    /\ ExtractNginxSpec o' = Ok (normalize spec).
Proof. intros Hv. by apply Extract_Set, validSpec_normalize. Qed.

Lemma resolved_normalize (s : NginxSpec) : resolved (normalize s).
Proof.
  split; [by apply orElse_nonempty|].
  intros t. simpl. destruct (NginxSpec_TLSSecret s) as [t0|]; [|done].
  intros [= <-]. simpl. repeat split; by repeat apply orElse_nonempty.
Qed.

End Properties.

(** ** The sample resources *)

(** The sample spec is valid, by evaluation. *)
Ltac sample_valid :=
  refine (conj _ (conj _ (conj _ (conj _ (conj _ _)))));
  [ reflexivity
  | intros ? [= <-]; reflexivity
  | intros ? [= <-]; repeat split
  | intros ? [= <-]; repeat split
  | split; [reflexivity|split; [discriminate|reflexivity]]
  | intros ? [= <-]; (split; [reflexivity|split; [discriminate|reflexivity]]) ].

Lemma spec_roundtrip_witness :
  validSpec SampleMore.withLimits
  /\ exists o',
       SetNginxSpec Sample.identity (normalize SampleMore.withLimits) = (o', None)
       /\ ExtractNginxSpec o' = Ok (normalize SampleMore.withLimits).
Proof.
  assert (validSpec SampleMore.withLimits) as Hvalid.
  { refine (conj _ (conj _ (conj _ (conj _ (conj _ _))))).
    - reflexivity.
    - intros ? [= <-]; reflexivity.
    - intros ? [= <-]; repeat split.
    - intros ? [= <-]; repeat split.
    - split; [vm_compute; reflexivity|]. split; [discriminate|vm_compute; reflexivity].
    - intros ? [= <-]. split; [reflexivity|split; [discriminate|reflexivity]]. }
  split; [exact Hvalid|].
  exact (spec_roundtrip Sample.identity SampleMore.withLimits Hvalid).
Defined.

(** Claim C1, as stated, fails.  The spec of a resource written with
    [limits: {}] has UTF-8 strings, three replicas and no affinity; its
    limits are a map without entries.  [SetNginxSpec] stores it without an
    error, the limits left out of the encoding ([omitempty]), and
    [ExtractNginxSpec] reads back a spec whose limits are nil: not the spec
    that was stored. *)
Lemma roundtrip_not_exact :
  let spec := normalize SampleMore.withEmptyLimits in
  (SetNginxSpec Sample.identity spec).2 = None
  /\ ExtractNginxSpec (SetNginxSpec Sample.identity spec).1 = Ok SampleMore.withoutLimits
  /\ ExtractNginxSpec (SetNginxSpec Sample.identity spec).1 ≠ Ok spec.
Proof.
  cbn zeta.
  assert (ExtractNginxSpec
            (SetNginxSpec Sample.identity (normalize SampleMore.withEmptyLimits)).1
          = Ok SampleMore.withoutLimits) as Hread by (vm_compute; reflexivity).
  split; [reflexivity|]. split; [exact Hread|].
  rewrite Hread. intros [=].
Qed.


Lemma normalization_defaults_witness :
  NginxSpec_Image (Nginx_Spec Sample.full) = ""
  /\ NginxSpec_TLSSecret (Nginx_Spec Sample.full) = Some Sample.secret
  /\ exists n' r t',
       NewDeployment Sample.ConfigKindConfigMap Sample.ConfigKindInline Sample.full
       = Some (n', r)
       /\ NginxSpec_Image (Nginx_Spec n') = "nginx:latest"
       /\ NginxSpec_TLSSecret (Nginx_Spec n') = Some t'
       /\ TLSSecret_KeyField t' = "tls.key"
       /\ TLSSecret_CertificateField t' = "tls.crt"
       /\ TLSSecret_KeyPath t' = TLSSecret_KeyField t'
       /\ TLSSecret_CertificatePath t' = TLSSecret_CertificateField t'.
Proof.
  split; [reflexivity|]. split; [reflexivity|].
  destruct (normalization_defaults Sample.ConfigKindConfigMap Sample.ConfigKindInline
              Sample.full)
    as (n' & r & Hrun & Himage & _ & _ & _ & _ & _ & Htls).
  destruct (Htls Sample.secret eq_refl)
    as (t' & Ht' & _ & Hkf & _ & Hcf & _ & Hkp & _ & Hcp & _).
  exists n', r, t'.
  split; [exact Hrun|]. split; [exact (Himage eq_refl)|]. split; [exact Ht'|].
  split; [exact (Hkf eq_refl)|]. split; [exact (Hcf eq_refl)|].
  split; [exact (Hkp eq_refl)|exact (Hcp eq_refl)].
Defined.

Lemma setupConfig_mount_witness :
  Deployment_Containers Sample.deployment = [Sample.container]
  /\ exists dep',
       setupConfig Sample.ConfigKindConfigMap Sample.ConfigKindInline
         (Some Sample.otherConfig) Sample.deployment = Some dep'
       /\ map Container_VolumeMounts (Deployment_Containers dep')
          = [ [ {| VolumeMount_Name := "nginx-config";
                   VolumeMount_MountPath := "/etc/nginx" |} ] ]
       /\ Deployment_Volumes dep' = [].
Proof.
  split; [reflexivity|].
  destruct (setupConfig_mount Sample.ConfigKindConfigMap Sample.ConfigKindInline
              Sample.otherConfig Sample.deployment Sample.container [] eq_refl)
    as (dep' & Hrun & Hcs & Hother).
  exists dep'. split; [exact Hrun|]. split; [rewrite Hcs; reflexivity|].
  destruct Hother as [Hvs _]; [discriminate|discriminate|]. exact Hvs.
Defined.

Lemma inline_config_witness :
  exists n' d c mounts volumes,
    NewDeployment Sample.ConfigKindConfigMap Sample.ConfigKindInline Sample.full
    = Some (n', Ok d)
    /\ Deployment_TemplateAnnotations d = Some {[ "custom" := "worker_processes 2;" ]}
    /\ Deployment_Volumes d
       = {| Volume_Name := "nginx-config";
            Volume_VolumeSource :=
              {| VolumeSource_ConfigMap := None;
                 VolumeSource_DownwardAPI :=
                   Some {| DownwardAPIVolumeSource_Items :=
                             [ {| DownwardAPIVolumeFile_Path := "nginx.conf";
                                  DownwardAPIVolumeFile_FieldRef :=
                                    Some {| ObjectFieldSelector_FieldPath :=
                                              "metadata.annotations['custom']" |} |} ] |};
                 VolumeSource_Secret := None |} |} :: volumes
    /\ Deployment_Containers d = [c]
    /\ Container_VolumeMounts c
       = {| VolumeMount_Name := "nginx-config"; VolumeMount_MountPath := "/etc/nginx" |}
         :: mounts.
Proof.
  apply (inline_config Sample.ConfigKindConfigMap Sample.ConfigKindInline
           Sample.full Sample.inlineConfig); [discriminate|reflexivity|reflexivity].
Defined.

Lemma ExtractNginxSpec_errors_witness :
  (ExtractNginxSpec Sample.identity : result (NginxSpec Sample.Quantities Sample.Quantities))
  = Err ("missing " +:+ String dquote "nginx.tsuru.io/generated-from"
         +:+ String dquote " annotation in deployment")
  /\ (ExtractNginxSpec Sample.corrupt : result (NginxSpec Sample.Quantities Sample.Quantities))
     = Err ("failed to unmarshal nginx from annotation: " +:+ SyntaxError).
Proof.
  split.
  - apply (proj1 (ExtractNginxSpec_errors Sample.identity)). reflexivity.
  - apply (proj1 (proj2 (ExtractNginxSpec_errors Sample.corrupt)) "{"); reflexivity.
Defined.

(** * Further properties of the builders *)

Section Builders.

Context {ResourceRequirements Affinity : Type}.
Context `{!GoJSON ResourceRequirements, !GoJSON Affinity}.
Variables ConfigKindConfigMap ConfigKindInline : string.

Local Abbreviation NginxSpec := (NginxSpec ResourceRequirements Affinity).
Local Abbreviation Nginx := (Nginx ResourceRequirements Affinity).
Local Abbreviation Deployment := (Deployment ResourceRequirements Affinity).
Local Abbreviation NewDeployment := (NewDeployment ConfigKindConfigMap ConfigKindInline).
Local Abbreviation setupConfig := (setupConfig ConfigKindConfigMap ConfigKindInline).
Local Abbreviation ExtractNginxSpec :=
  (@ExtractNginxSpec ResourceRequirements Affinity _ _).
Local Abbreviation SetNginxSpec := (@SetNginxSpec ResourceRequirements Affinity _ _).

#[local] Arguments json.encode : simpl never.
#[local] Arguments toJSON : simpl never.
#[local] Arguments valueOrDefault : simpl never.
#[local] Arguments LabelsForNginx : simpl never.
#[local] Arguments NewControllerRef : simpl never.

Ltac split_NewDeployment :=
  unfold NewDeployment, setupConfig, setupTLS, assignContainer0, SetNginxSpec, Marshal;
  cbn [Nginx_Spec Nginx_setSpec NginxSpec_Config NginxSpec_TLSSecret NginxSpec_setImage
       NginxSpec_setTLSSecret NginxSpec_Image NginxSpec_Replicas NginxSpec_PodTemplate
       Nginx_ObjectMeta Nginx_TypeMeta];
  repeat match goal with
  | |- context [match ?x with Some _ => _ | None => _ end] =>
    is_var x; destruct x
  | |- context [String.eqb (ConfigRef_Kind ?c) ?k] =>
    destruct (String.eqb (ConfigRef_Kind c) k)
  end; cbn.

(** The deployment that [NewDeployment] returns, written out: the parts that
    [setupConfig] and [setupTLS] add, by the configuration and the secret of
    the resource. *)
Lemma NewDeployment_shape (n : Nginx) :
  let s := Nginx_Spec n in
  let s' := normalize s in
  let name := ObjectMeta_Name (Nginx_ObjectMeta n) in
  let namespace := ObjectMeta_Namespace (Nginx_ObjectMeta n) in
  let known (conf : ConfigRef) :=
    String.eqb (ConfigRef_Kind conf) ConfigKindConfigMap
    || String.eqb (ConfigRef_Kind conf) ConfigKindInline in
  let inline (conf : ConfigRef) :=
    negb (String.eqb (ConfigRef_Kind conf) ConfigKindConfigMap)
    && String.eqb (ConfigRef_Kind conf) ConfigKindInline in
  let configVolume (conf : ConfigRef) :=
    {| Volume_Name := "nginx-config";
       Volume_VolumeSource :=
         if inline conf then
           {| VolumeSource_ConfigMap := None;
              VolumeSource_DownwardAPI :=
                Some {| DownwardAPIVolumeSource_Items :=
                          [ {| DownwardAPIVolumeFile_Path := "nginx.conf";
                               DownwardAPIVolumeFile_FieldRef :=
                                 Some {| ObjectFieldSelector_FieldPath :=
                                           "metadata.annotations['"
                                           +:+ ConfigRef_Name conf +:+ "']" |} |} ] |};
              VolumeSource_Secret := None |}
         else
           {| VolumeSource_ConfigMap :=
                Some {| ConfigMapVolumeSource_LocalObjectReference :=
                          {| LocalObjectReference_Name := ConfigRef_Name conf |} |};
              VolumeSource_DownwardAPI := None;
              VolumeSource_Secret := None |} |} in
  let secretVolume (t : TLSSecret) :=
    {| Volume_Name := "nginx-certs";
       Volume_VolumeSource :=
         {| VolumeSource_ConfigMap := None;
            VolumeSource_DownwardAPI := None;
            VolumeSource_Secret :=
              Some {| SecretVolumeSource_SecretName := TLSSecret_SecretName t;
                      SecretVolumeSource_Items :=
                        [ {| KeyToPath_Key := TLSSecret_KeyField t;
                             KeyToPath_Path := TLSSecret_KeyPath t |};
                          {| KeyToPath_Key := TLSSecret_CertificateField t;
                             KeyToPath_Path := TLSSecret_CertificatePath t |} ] |} |} |} in
  let port name number :=
    {| ContainerPort_Name := name; ContainerPort_ContainerPort := number;
       ContainerPort_Protocol := "TCP" |} in
  let probe scheme name :=
    {| Probe_Handler :=
         {| Handler_HTTPGet :=
              Some {| HTTPGetAction_Path := "/"; HTTPGetAction_Port := FromString name;
                      HTTPGetAction_Scheme := scheme |} |} |} in
  NewDeployment n
  = Some
      (Nginx_setSpec n s',
       Ok {| Deployment_TypeMeta :=
               {| TypeMeta_Kind := "Deployment"; TypeMeta_APIVersion := "apps/v1" |};
             Deployment_ObjectMeta :=
               {| ObjectMeta_Name := name +:+ "-deployment";
                  ObjectMeta_Namespace := namespace;
                  ObjectMeta_UID := "";
                  ObjectMeta_Labels := None;
                  ObjectMeta_Annotations :=
                    Some {[ generatedFromAnnotation := json.encode (toJSON s') ]};
                  ObjectMeta_OwnerReferences :=
                    [NewControllerRef (Nginx_ObjectMeta n) nginxGVK] |};
             Deployment_Spec :=
               {| DeploymentSpec_Replicas := NginxSpec_Replicas s;
                  DeploymentSpec_Selector :=
                    Some {| LabelSelector_MatchLabels := LabelsForNginx name |};
                  DeploymentSpec_Template :=
                    {| PodTemplateSpec_ObjectMeta :=
                         {| ObjectMeta_Name := "";
                            ObjectMeta_Namespace := namespace;
                            ObjectMeta_UID := "";
                            ObjectMeta_Labels := LabelsForNginx name;
                            ObjectMeta_Annotations :=
                              match NginxSpec_Config s with
                              | Some conf =>
                                if inline conf
                                then Some {[ ConfigRef_Name conf := ConfigRef_Value conf ]}
                                else None
                              | None => None
                              end;
                            ObjectMeta_OwnerReferences := [] |};
                       PodTemplateSpec_Spec :=
                         {| PodSpec_Containers :=
                              [ {| Container_Name := "nginx";
                                   Container_Image := NginxSpec_Image s';
                                   Container_Ports :=
                                     port "http" 80
                                     :: (if NginxSpec_TLSSecret s is Some _
                                         then [port "https" 443] else []);
                                   Container_Resources :=
                                     NginxPodTemplateSpec_Resources (NginxSpec_PodTemplate s);
                                   Container_ReadinessProbe :=
                                     Some (if NginxSpec_TLSSecret s is Some _
                                           then probe "HTTPS" "https"
                                           else probe "HTTP" "http");
                                   Container_VolumeMounts :=
                                     (if NginxSpec_Config s is Some _
                                      then [ {| VolumeMount_Name := "nginx-config";
                                                VolumeMount_MountPath := "/etc/nginx" |} ]
                                      else [])
                                     ++ (if NginxSpec_TLSSecret s is Some _
                                         then [ {| VolumeMount_Name := "nginx-certs";
                                                   VolumeMount_MountPath := "/etc/nginx/certs" |} ]
                                         else []) |} ];
                            PodSpec_Volumes :=
                              match NginxSpec_Config s with
                              | Some conf => if known conf then [configVolume conf] else []
                              | None => []
                              end
                              ++ match NginxSpec_TLSSecret s' with
                                 | Some t => [secretVolume t]
                                 | None => []
                                 end;
                            PodSpec_Affinity :=
                              NginxPodTemplateSpec_Affinity (NginxSpec_PodTemplate s) |} |} |} |}).
Proof.
  destruct n as [tm om [rep im conf tls pt]]. cbn zeta.
  unfold normalize, normalizeTLS.
  cbn [Nginx_Spec NginxSpec_Config NginxSpec_TLSSecret NginxSpec_Image NginxSpec_Replicas
       NginxSpec_PodTemplate Nginx_ObjectMeta fmap option_fmap option_map].
  split_NewDeployment; rewrite ?valueOrDefault_orElse; reflexivity.
Qed.


Ltac with_shape n :=
  let H := fresh "Hshape" in
  pose proof (NewDeployment_shape n) as H; cbn zeta in H.

(** Property X1.  The named ports resolve: each port of the service of
    [NewService] has the name, the number and the protocol of a port of the
    one container of the deployment of [NewDeployment], in the same order,
    and targets that port by its name; the readiness probe of the container
    targets, by name, the last port that the container declares. *)
Theorem named_ports_resolve (n : Nginx) :
  exists n' d c probe get,
    NewDeployment n = Some (n', Ok d)
    /\ Deployment_Containers d = [c]
    /\ map (fun p => (ServicePort_Name p, ServicePort_TargetPort p,
                      ServicePort_Port p, ServicePort_Protocol p))
           (ServiceSpec_Ports (Service_Spec (NewService n)))
       = map (fun p => (ContainerPort_Name p, FromString (ContainerPort_Name p),
                        ContainerPort_ContainerPort p, ContainerPort_Protocol p))
             (Container_Ports c)
    /\ Container_ReadinessProbe c = Some probe
    /\ Handler_HTTPGet (Probe_Handler probe) = Some get
    /\ (FromString <$> last (map ContainerPort_Name (Container_Ports c)))
       = Some (HTTPGetAction_Port get).
Proof.
  with_shape n. unfold NewService.
  destruct (NginxSpec_TLSSecret (Nginx_Spec n));
    (eexists _, _, _, _, _; split; [exact Hshape|]; repeat split).
Qed.

(** Property X2.  When the configuration of the resource is nil or of one
    of the two kinds that [setupConfig] knows, the container of the
    deployment of [NewDeployment] mounts exactly the volumes of the pod, in
    their order: the names of its volume mounts are the names of the
    volumes. *)
Theorem mounts_match_volumes (n : Nginx) :
  (forall conf, NginxSpec_Config (Nginx_Spec n) = Some conf ->
     ConfigRef_Kind conf = ConfigKindConfigMap \/ ConfigRef_Kind conf = ConfigKindInline) ->
  exists n' d c,
    NewDeployment n = Some (n', Ok d)
    /\ Deployment_Containers d = [c]
    /\ map VolumeMount_Name (Container_VolumeMounts c)
       = map Volume_Name (Deployment_Volumes d).
Proof.
  intros Hknown. with_shape n.
  eexists _, _, _. split; [exact Hshape|]. split; [reflexivity|].
  cbn. destruct (NginxSpec_Config (Nginx_Spec n)) as [conf|];
    destruct (NginxSpec_TLSSecret (Nginx_Spec n)); cbn; try reflexivity.
  all: destruct (Hknown conf eq_refl) as [-> | ->]; rewrite String.eqb_refl, ?orb_true_r;
    reflexivity.
Qed.

(** Property X3.  For a configuration of a kind that [setupConfig] does not
    know, the deployment of [NewDeployment] is returned without an error and
    its container mounts [nginx-config], but the pod has no volume of that
    name, with or without a TLS secret, and the pod template has no
    annotations. *)
Theorem unknown_kind_dangling_mount (n : Nginx) (conf : ConfigRef) :
  NginxSpec_Config (Nginx_Spec n) = Some conf ->
  ConfigRef_Kind conf ≠ ConfigKindConfigMap ->
  ConfigRef_Kind conf ≠ ConfigKindInline ->
  exists n' d c,
    NewDeployment n = Some (n', Ok d)
    /\ Deployment_Containers d = [c]
    /\ ("nginx-config" ∈ map VolumeMount_Name (Container_VolumeMounts c))
    /\ ("nginx-config" ∉ map Volume_Name (Deployment_Volumes d))
    /\ Deployment_TemplateAnnotations d = None.
Proof.
  intros Hconf Hcm Hin. with_shape n. rewrite Hconf in Hshape.
  apply String.eqb_neq in Hcm, Hin. rewrite Hcm, Hin in Hshape. cbn in Hshape.
  eexists _, _, _. split; [exact Hshape|]. split; [reflexivity|]. cbn.
  split; [by left|]. split; [|done].
  destruct (NginxSpec_TLSSecret (Nginx_Spec n)); cbn; [|by apply not_elem_of_nil].
  intros [H|H]%elem_of_cons; [discriminate H|by apply not_elem_of_nil in H].
Qed.

(** Property X4.  The identity of the two objects: [NewDeployment] leaves
    the metadata of the resource as they are; the deployment is named after
    the resource with the suffix [-deployment], the service with the suffix
    [-service]; the deployment, its pod template and the service are in the
    namespace of the resource; the deployment and the service have the same
    one owner reference, the controller reference to the resource; the
    deployment itself has no labels, the labels of the service are its
    selector, and the service is of type ClusterIP. *)
Theorem derived_metadata (n : Nginx) :
  let name := ObjectMeta_Name (Nginx_ObjectMeta n) in
  let owner :=
    {| OwnerReference_APIVersion := "nginx.tsuru.io/v1alpha1";
       OwnerReference_Kind := "Nginx";
       OwnerReference_Name := name;
       OwnerReference_UID := ObjectMeta_UID (Nginx_ObjectMeta n);
       OwnerReference_Controller := Some true;
       OwnerReference_BlockOwnerDeletion := Some true |} in
  let service := NewService n in
  exists n' d,
    NewDeployment n = Some (n', Ok d)
    /\ Nginx_ObjectMeta n' = Nginx_ObjectMeta n
    /\ Nginx_TypeMeta n' = Nginx_TypeMeta n
    /\ ObjectMeta_Name (Deployment_ObjectMeta d) = name +:+ "-deployment"
    /\ ObjectMeta_Name (Service_ObjectMeta service) = name +:+ "-service"
    /\ ObjectMeta_Namespace (Deployment_ObjectMeta d)
       = ObjectMeta_Namespace (Nginx_ObjectMeta n)
    /\ ObjectMeta_Namespace (Service_ObjectMeta service)
       = ObjectMeta_Namespace (Nginx_ObjectMeta n)
    /\ ObjectMeta_Namespace (PodTemplateSpec_ObjectMeta (Deployment_Template d))
       = ObjectMeta_Namespace (Nginx_ObjectMeta n)
    /\ ObjectMeta_OwnerReferences (Deployment_ObjectMeta d) = [owner]
    /\ ObjectMeta_OwnerReferences (Service_ObjectMeta service) = [owner]
    /\ ObjectMeta_Labels (Deployment_ObjectMeta d) = None
    /\ ObjectMeta_Labels (Service_ObjectMeta service)
       = ServiceSpec_Selector (Service_Spec service)
    /\ ServiceSpec_Type (Service_Spec service) = "ClusterIP".
Proof.
  cbn zeta. with_shape n. eexists _, _. split; [exact Hshape|].
  unfold NewService.
  destruct (NginxSpec_TLSSecret (Nginx_Spec n)); repeat split.
Qed.

(** Property X5.  The one container of the deployment of [NewDeployment] is
    named [nginx], its image is the image that [NewDeployment] leaves in the
    resource (the default when none was given), its resources and the
    affinity of the pod are those of the pod template of the resource, and
    the replica count of the deployment is that of the resource, nil when it
    is nil. *)
Theorem overrides_passed_through (n : Nginx) :
  exists n' d c,
    NewDeployment n = Some (n', Ok d)
    /\ Deployment_Containers d = [c]
    /\ Container_Name c = "nginx"
    /\ Container_Image c = NginxSpec_Image (Nginx_Spec n')
    /\ Container_Resources c
       = NginxPodTemplateSpec_Resources (NginxSpec_PodTemplate (Nginx_Spec n))
    /\ PodSpec_Affinity (PodTemplateSpec_Spec (Deployment_Template d))
       = NginxPodTemplateSpec_Affinity (NginxSpec_PodTemplate (Nginx_Spec n))
    /\ DeploymentSpec_Replicas (Deployment_Spec d) = NginxSpec_Replicas (Nginx_Spec n).
Proof.
  with_shape n. eexists _, _, _. split; [exact Hshape|]. repeat split.
Qed.

(** Property X6.  The deployment of [NewDeployment] has exactly one
    annotation, [nginx.tsuru.io/generated-from] with the encoding of the
    spec that is left in the resource: an inline configuration is written to
    the annotations of the pod template, never to those of the deployment. *)
Theorem deployment_annotations_singleton (n : Nginx) :
  exists n' d,
    NewDeployment n = Some (n', Ok d)
    /\ ObjectMeta_Annotations (Deployment_ObjectMeta d)
       = Some {[ "nginx.tsuru.io/generated-from" := json.encode (toJSON (Nginx_Spec n')) ]}.
Proof.
  with_shape n. eexists _, _. split; [exact Hshape|]. reflexivity.
Qed.

(** Property X7.  For a resource with a TLS secret, the last volume of
    the deployment of [NewDeployment] is [nginx-certs], a secret volume of
    the secret of that name whose two items are the key and the certificate,
    with the field names and the paths of the TLS secret that
    [NewDeployment] leaves in the resource, none of them empty; the last
    volume mount of the container is [nginx-certs] at [/etc/nginx/certs]. *)
Theorem tls_volume_agrees_with_spec (n : Nginx) (t : TLSSecret) :
  NginxSpec_TLSSecret (Nginx_Spec n) = Some t ->
  exists n' d c t' volumes mounts,
    NewDeployment n = Some (n', Ok d)
    /\ NginxSpec_TLSSecret (Nginx_Spec n') = Some t'
    /\ Deployment_Containers d = [c]
    /\ Deployment_Volumes d
       = volumes ++
         [ {| Volume_Name := "nginx-certs";
              Volume_VolumeSource :=
                {| VolumeSource_ConfigMap := None;
                   VolumeSource_DownwardAPI := None;
                   VolumeSource_Secret :=
                     Some {| SecretVolumeSource_SecretName := TLSSecret_SecretName t;
                             SecretVolumeSource_Items :=
                               [ {| KeyToPath_Key := TLSSecret_KeyField t';
                                    KeyToPath_Path := TLSSecret_KeyPath t' |};
                                 {| KeyToPath_Key := TLSSecret_CertificateField t';
                                    KeyToPath_Path := TLSSecret_CertificatePath t' |} ] |} |} |} ]
    /\ Container_VolumeMounts c
       = mounts ++ [ {| VolumeMount_Name := "nginx-certs";
                        VolumeMount_MountPath := "/etc/nginx/certs" |} ]
    /\ TLSSecret_KeyField t' ≠ "" /\ TLSSecret_KeyPath t' ≠ ""
    /\ TLSSecret_CertificateField t' ≠ "" /\ TLSSecret_CertificatePath t' ≠ "".
Proof.
  intros Ht. with_shape n. rewrite Ht in Hshape.
  destruct (resolved_normalize (Nginx_Spec n)) as [_ Hres].
  destruct (Hres (normalizeTLS t)) as (? & ? & ? & ?).
  { cbn. by rewrite Ht. }
  eexists _, _, _, (normalizeTLS t), _, _. split; [exact Hshape|].
  split; [cbn; by rewrite Ht|]. split; [reflexivity|].
  split; [cbn; rewrite Ht; reflexivity|]. split; [reflexivity|]. done.
Qed.

(** Property X8.  For a configuration of the config map kind, the first
    volume of the deployment of [NewDeployment] is [nginx-config], a config
    map volume of the config map with the name of the configuration, the
    first volume mount of the container is [nginx-config] at [/etc/nginx],
    and the pod template has no annotations. *)
Theorem configmap_volume (n : Nginx) (conf : ConfigRef) :
  NginxSpec_Config (Nginx_Spec n) = Some conf ->
  ConfigRef_Kind conf = ConfigKindConfigMap ->
  exists n' d c volumes mounts,
    NewDeployment n = Some (n', Ok d)
    /\ Deployment_Containers d = [c]
    /\ Deployment_Volumes d
       = {| Volume_Name := "nginx-config";
            Volume_VolumeSource :=
              {| VolumeSource_ConfigMap :=
                   Some {| ConfigMapVolumeSource_LocalObjectReference :=
                             {| LocalObjectReference_Name := ConfigRef_Name conf |} |};
                 VolumeSource_DownwardAPI := None;
                 VolumeSource_Secret := None |} |} :: volumes
    /\ Container_VolumeMounts c
       = {| VolumeMount_Name := "nginx-config"; VolumeMount_MountPath := "/etc/nginx" |}
         :: mounts
    /\ Deployment_TemplateAnnotations d = None.
Proof.
  intros Hconf Hkind. with_shape n. rewrite Hconf, Hkind, String.eqb_refl in Hshape.
  cbn in Hshape.
  eexists _, _, _, _, _. split; [exact Hshape|]. repeat split.
Qed.

(** Property X9.  For a resource without configuration and without TLS
    secret, the deployment of [NewDeployment] has no volumes, its container
    no volume mounts, its pod template no annotations, and the container and
    the service of [NewService] have the one port 80. *)
Theorem bare_resource (n : Nginx) :
  NginxSpec_Config (Nginx_Spec n) = None ->
  NginxSpec_TLSSecret (Nginx_Spec n) = None ->
  exists n' d c,
    NewDeployment n = Some (n', Ok d)
    /\ Deployment_Containers d = [c]
    /\ Deployment_Volumes d = []
    /\ Container_VolumeMounts c = []
    /\ Deployment_TemplateAnnotations d = None
    /\ map ContainerPort_ContainerPort (Container_Ports c) = [80]
    /\ map ServicePort_Port (ServiceSpec_Ports (Service_Spec (NewService n))) = [80].
Proof.
  intros Hconf Htls. with_shape n.
  assert (NginxSpec_TLSSecret (normalize (Nginx_Spec n)) = None) as Htls'
    by (cbn; by rewrite Htls).
  rewrite Hconf, Htls, Htls' in Hshape.
  eexists _, _, _. split; [exact Hshape|]. unfold NewService. rewrite Htls.
  repeat split.
Qed.


(** Property X10.  [SetNginxSpec] returns no error and changes nothing but
    the annotation [nginx.tsuru.io/generated-from]: every other annotation
    of the object reads as before, also when the object had no annotations,
    and the name, the namespace, the UID, the labels and the owner
    references are as they were. *)
Theorem SetNginxSpec_keeps_rest (o : ObjectMeta) (spec : NginxSpec) (k : string) :
  k ≠ "nginx.tsuru.io/generated-from" ->
  let o' := (SetNginxSpec o spec).1 in
  (SetNginxSpec o spec).2 = None
  /\ mapIndex (ObjectMeta_Annotations o') k = mapIndex (ObjectMeta_Annotations o) k
  /\ ObjectMeta_Name o' = ObjectMeta_Name o
  /\ ObjectMeta_Namespace o' = ObjectMeta_Namespace o
  /\ ObjectMeta_UID o' = ObjectMeta_UID o
  /\ ObjectMeta_Labels o' = ObjectMeta_Labels o
  /\ ObjectMeta_OwnerReferences o' = ObjectMeta_OwnerReferences o.
Proof.
  intros Hk. cbn zeta. unfold SetNginxSpec, Marshal.
  destruct o as [name namespace uid labels [annotations|] owners]; cbn;
    repeat split; unfold mapIndex; cbn.
  - by apply lookup_insert_ne.
  - rewrite lookup_insert_ne by done. apply lookup_empty.
Qed.

(** Property X11.  [SetNginxSpec] overwrites: setting a spec on an object
    on which another spec has been set gives the object, and the result,
    of setting it on the original object. *)
Theorem SetNginxSpec_overwrites (o : ObjectMeta) (s1 s2 : NginxSpec) :
  SetNginxSpec (SetNginxSpec o s1).1 s2 = SetNginxSpec o s2.
Proof.
  unfold SetNginxSpec, Marshal.
  destruct o as [name namespace uid labels [annotations|] owners]; cbn;
    by rewrite insert_insert_eq.
Qed.

(** The annotation that [SetNginxSpec] writes. *)
Lemma SetNginxSpec_annotation (o : ObjectMeta) (s : NginxSpec) :
  mapIndex (ObjectMeta_Annotations (SetNginxSpec o s).1) generatedFromAnnotation
  = Some (json.encode (toJSON s)).
Proof.
  unfold SetNginxSpec, Marshal.
  destruct (ObjectMeta_Annotations o) eqn:Ha; cbn; try rewrite Ha; apply mapIndex_assign.
Qed.

(** A spec and the spec with its overrides as their encodings are written
    alike. *)
Lemma encodedOverrides_toJSON (s : NginxSpec) :
  @toJSON _ (@NginxSpec_json _ _ Encoded_json Encoded_json) (encodedOverrides s) = toJSON s.
Proof. destruct s as [rep im conf tls [[a|] res]]; reflexivity. Qed.

Lemma wellEncoded_valid (s : NginxSpec) :
  wellEncoded s -> @validSpec _ _ Encoded_json Encoded_json (encodedOverrides s).
Proof.
  intros (Him & Hrep & Hconf & Htls & Hres & Haff).
  refine (conj Him (conj Hrep (conj Hconf (conj Htls (conj _ _))))).
  - destruct Hres. by repeat split.
  - cbn. intros v Hv.
    destruct (NginxPodTemplateSpec_Affinity (NginxSpec_PodTemplate s)) as [a|]; [|done].
    injection Hv as <-. destruct (Haff a eq_refl). by repeat split.
Qed.

(** Property X12.  What the annotation tells apart.  For two specs whose
    strings are UTF-8, whose replica counts are [int32] and whose overrides
    have well-formed encodings (nothing is assumed on how the overrides are
    read back), [SetNginxSpec] writes the same
    [nginx.tsuru.io/generated-from] annotation, on whatever objects, exactly
    when the two specs have the same image, replicas, configuration and TLS
    secret and their resources and affinities have the same encodings: a
    change of the image, the replicas, the configuration or the TLS secret
    always shows in the annotation. *)
Theorem annotation_tells_specs_apart (o1 o2 : ObjectMeta) (s1 s2 : NginxSpec) :
  wellEncoded s1 -> wellEncoded s2 ->
  mapIndex (ObjectMeta_Annotations (SetNginxSpec o1 s1).1) "nginx.tsuru.io/generated-from"
  = mapIndex (ObjectMeta_Annotations (SetNginxSpec o2 s2).1) "nginx.tsuru.io/generated-from"
  <-> NginxSpec_Image s1 = NginxSpec_Image s2
      /\ NginxSpec_Replicas s1 = NginxSpec_Replicas s2
      /\ NginxSpec_Config s1 = NginxSpec_Config s2
      /\ NginxSpec_TLSSecret s1 = NginxSpec_TLSSecret s2
      /\ toJSON (NginxPodTemplateSpec_Resources (NginxSpec_PodTemplate s1))
         = toJSON (NginxPodTemplateSpec_Resources (NginxSpec_PodTemplate s2))
      /\ toJSON <$> NginxPodTemplateSpec_Affinity (NginxSpec_PodTemplate s1)
         = toJSON <$> NginxPodTemplateSpec_Affinity (NginxSpec_PodTemplate s2).
Proof.
  intros H1 H2.
  change "nginx.tsuru.io/generated-from" with generatedFromAnnotation.
  rewrite !SetNginxSpec_annotation, <- !encodedOverrides_toJSON.
  split.
  - intros [= Heq].
    apply wellEncoded_valid in H1, H2.
    pose proof (@NginxSpec_wf _ _ Encoded_json Encoded_json _ H1) as Hw1.
    pose proof (@NginxSpec_wf _ _ Encoded_json Encoded_json _ H2) as Hw2.
    pose proof (@NginxSpec_decode _ _ Encoded_json Encoded_json _ H1) as Hd1.
    pose proof (@NginxSpec_decode _ _ Encoded_json Encoded_json _ H2) as Hd2.
    apply (f_equal json.decode) in Heq.
    rewrite !json_facts.decode_encode in Heq by done.
    apply (inj Some) in Heq. rewrite Heq in Hd1. rewrite Hd1 in Hd2.
    injection Hd2 as Hrep Him Hconf Htls Haff Hres. done.
  - intros (Him & Hrep & Hconf & Htls & Hres & Haff).
    unfold encodedOverrides. by rewrite Him, Hrep, Hconf, Htls, Hres, Haff.
Qed.

(** Property X13.  The service of one resource selects the pods of the
    deployment of another (every label of its selector is a label of the
    pod template, with the same value) exactly when the two resources have
    the same name. *)
Theorem service_selects_own_pods (n m : Nginx) :
  let selects (selector labels : stringMap) :=
    forall k v, mapIndex selector k = Some v -> mapIndex labels k = Some v in
  exists m' d,
    NewDeployment m = Some (m', Ok d)
    /\ (selects (ServiceSpec_Selector (Service_Spec (NewService n)))
                (ObjectMeta_Labels (PodTemplateSpec_ObjectMeta (Deployment_Template d)))
        <-> ObjectMeta_Name (Nginx_ObjectMeta n) = ObjectMeta_Name (Nginx_ObjectMeta m)).
Proof.
  cbn zeta. with_shape m. eexists _, _. split; [exact Hshape|].
  assert (ServiceSpec_Selector (Service_Spec (NewService n))
          = LabelsForNginx (ObjectMeta_Name (Nginx_ObjectMeta n))) as ->.
  { unfold NewService. by destruct (NginxSpec_TLSSecret (Nginx_Spec n)). }
  cbn [Deployment_Template Deployment_Spec DeploymentSpec_Template
       PodTemplateSpec_ObjectMeta ObjectMeta_Labels].
  split.
  - intros Hsel. specialize (Hsel "nginx_cr" (ObjectMeta_Name (Nginx_ObjectMeta n))).
    unfold LabelsForNginx in Hsel. rewrite !mapIndex_assign in Hsel.
    specialize (Hsel eq_refl). congruence.
  - by intros ->.
Qed.

(** Property X14.  On a deployment without containers, [setupConfig] and
    [setupTLS] panic for every reference that is not nil (they index the
    first container before anything else), and return the deployment as it
    is for a nil one. *)
Theorem setup_without_container (dep : Deployment) :
  Deployment_Containers dep = [] ->
  (forall conf, setupConfig (Some conf) dep = None)
  /\ (forall secret, setupTLS (Some secret) dep = None)
  /\ setupConfig None dep = Some dep
  /\ setupTLS None dep = Some (None, dep).
Proof.
  intros Hnone. unfold setupConfig, setupTLS, assignContainer0. rewrite Hnone.
  repeat split.
Qed.

(** Property X15.  [NewDeployment] leaves the resource exactly as it was if
    and only if its spec was resolved already: the image is not empty, and
    neither are the four fields of the TLS secret, if there is one. *)
Theorem resolved_resource_unchanged (n : Nginx) :
  exists n' d,
    NewDeployment n = Some (n', Ok d)
    /\ (n' = n <-> resolved (Nginx_Spec n)).
Proof.
  with_shape n. eexists _, _. split; [exact Hshape|].
  assert (forall s d, orElse s d = s -> d ≠ "" -> s ≠ "") as Hfilled.
  { intros s d Hs Hd. rewrite <- Hs. by apply orElse_nonempty. }
  assert (forall s d, s ≠ "" -> orElse s d = s) as Hkept.
  { intros s d Hs. unfold orElse. by destruct (String.eqb_spec s ""). }
  destruct n as [tm om [rep im conf tls pt]]. unfold resolved, normalize, normalizeTLS.
  cbn [Nginx_setSpec Nginx_Spec Nginx_TypeMeta Nginx_ObjectMeta NginxSpec_Image
       NginxSpec_Replicas NginxSpec_Config NginxSpec_TLSSecret NginxSpec_PodTemplate].
  split.
  - intros [= Him Htls]. split; [by eapply Hfilled|].
    intros t ->. destruct t as [sn kf cf kp cp]. cbn in Htls |- *.
    injection Htls as Hkf Hcf Hkp Hcp.
    assert (kf ≠ "") by (by eapply Hfilled).
    assert (cf ≠ "") by (by eapply Hfilled).
    rewrite Hkf in Hkp. rewrite Hcf in Hcp.
    repeat split; try done; by eapply Hfilled.
  - intros [Him Htls]. rewrite (Hkept im) by done. f_equal. f_equal.
    destruct tls as [[sn kf cf kp cp]|]; [|done].
    destruct (Htls _ eq_refl) as (? & ? & ? & ?). cbn in *.
    by rewrite !Hkept.
Qed.

(** Property X16.  For a secret that is not nil, on a deployment with a
    first container, [setupTLS] appends the port [https] 443 to that
    container, replaces its readiness probe by the HTTPS probe of the port
    [https], appends the volume mount [nginx-certs] at [/etc/nginx/certs],
    and appends the volume [nginx-certs] of the secret to the volumes of the
    pod, with the defaults for the empty fields; the secret is left with
    those defaults filled in; the other containers, the name, the image and
    the resources of the first, the annotations of the pod template and the
    metadata of the deployment are as they were. *)
Theorem setupTLS_effect (secret : TLSSecret) (dep : Deployment)
    (c : Container ResourceRequirements) (cs : list (Container ResourceRequirements)) :
  Deployment_Containers dep = c :: cs ->
  exists dep',
    setupTLS (Some secret) dep = Some (Some (normalizeTLS secret), dep')
    /\ Deployment_Containers dep'
       = {| Container_Name := Container_Name c;
            Container_Image := Container_Image c;
            Container_Ports :=
              Container_Ports c
              ++ [ {| ContainerPort_Name := "https"; ContainerPort_ContainerPort := 443;
                      ContainerPort_Protocol := "TCP" |} ];
            Container_Resources := Container_Resources c;
            Container_ReadinessProbe :=
              Some {| Probe_Handler :=
                        {| Handler_HTTPGet :=
                             Some {| HTTPGetAction_Path := "/";
                                     HTTPGetAction_Port := FromString "https";
                                     HTTPGetAction_Scheme := "HTTPS" |} |} |};
            Container_VolumeMounts :=
              Container_VolumeMounts c
              ++ [ {| VolumeMount_Name := "nginx-certs";
                      VolumeMount_MountPath := "/etc/nginx/certs" |} ] |} :: cs
    /\ Deployment_Volumes dep'
       = Deployment_Volumes dep
         ++ [ {| Volume_Name := "nginx-certs";
                 Volume_VolumeSource :=
                   {| VolumeSource_ConfigMap := None;
                      VolumeSource_DownwardAPI := None;
                      VolumeSource_Secret :=
                        Some {| SecretVolumeSource_SecretName := TLSSecret_SecretName secret;
                                SecretVolumeSource_Items :=
                                  [ {| KeyToPath_Key := orElse (TLSSecret_KeyField secret) "tls.key";
                                       KeyToPath_Path :=
                                         orElse (TLSSecret_KeyPath secret)
                                           (orElse (TLSSecret_KeyField secret) "tls.key") |};
                                    {| KeyToPath_Key :=
                                         orElse (TLSSecret_CertificateField secret) "tls.crt";
                                       KeyToPath_Path :=
                                         orElse (TLSSecret_CertificatePath secret)
                                           (orElse (TLSSecret_CertificateField secret)
                                              "tls.crt") |} ] |} |} |} ]
    /\ Deployment_TemplateAnnotations dep' = Deployment_TemplateAnnotations dep
    /\ Deployment_ObjectMeta dep' = Deployment_ObjectMeta dep
    /\ Deployment_TypeMeta dep' = Deployment_TypeMeta dep.
Proof.
  intros Hc. unfold setupTLS, assignContainer0. rewrite Hc.
  cbn [mbind option_bind]. 
  destruct dep as [tm om [rep sel [tom [cs0 vs aff]]]]. cbn in Hc |- *. 
  rewrite !valueOrDefault_orElse.
  eexists. split; [reflexivity|]. repeat split.
Qed.


Lemma normalize_idem (s : NginxSpec) : normalize (normalize s) = normalize s.
Proof.
  destruct s as [rep im conf tls pt]. unfold normalize, normalizeTLS.
  cbn [NginxSpec_Image NginxSpec_Replicas NginxSpec_Config NginxSpec_TLSSecret
       NginxSpec_PodTemplate].
  rewrite orElse_idem by done. f_equal.
  destruct tls as [[sn kf cf kp cp]|]; [|done]. cbn.
  rewrite !(orElse_idem kf), !(orElse_idem cf) by done.
  rewrite !orElse_idem by (by apply orElse_nonempty). done.
Qed.

(** Property X17.  When the spec is read back unchanged from its encoding,
    the annotation is enough to build the deployment again: for a spec whose
    strings are UTF-8, whose replica count is an [int32] and whose pod
    template overrides are read back unchanged from their own encoding, the
    spec that [ExtractNginxSpec] reads from the deployment of
    [NewDeployment], put back in the resource, makes [NewDeployment] return
    the same deployment and leave the same resource, and makes [NewService]
    return the same service.  Nothing is said of overrides that their
    encoding does not give back. *)
Theorem regenerate_from_annotation (n : Nginx) :
  validSpec (Nginx_Spec n) ->
  exists n1 d1 s,
    NewDeployment n = Some (n1, Ok d1)
    /\ ExtractNginxSpec (Deployment_ObjectMeta d1) = Ok s
    /\ NewDeployment (Nginx_setSpec n s) = Some (n1, Ok d1)
    /\ NewService (Nginx_setSpec n s) = NewService n.
Proof.
  intros Hvalid. with_shape n.
  eexists _, _, (normalize (Nginx_Spec n)). split; [exact Hshape|]. split; [|split].
  - destruct (Unmarshal_Marshal _ (validSpec_normalize _ Hvalid)) as (data & HM & HU).
    injection HM as <-.
    unfold ExtractNginxSpec. cbn [Deployment_ObjectMeta ObjectMeta_Annotations].
    unfold mapIndex. cbn [mbind option_bind]. rewrite lookup_singleton_eq.
    by rewrite HU.
  - rewrite (NewDeployment_shape (Nginx_setSpec n (normalize (Nginx_Spec n)))).
    cbn zeta. destruct n as [tm om s].
    cbn [Nginx_setSpec Nginx_Spec Nginx_ObjectMeta Nginx_TypeMeta].
    rewrite normalize_idem.
    destruct s as [rep im conf [t|] pt]; reflexivity.
  - destruct n as [tm om [rep im conf [t|] pt]]; reflexivity.
Qed.

(** Property X18.  An annotation whose replica count is an integer that is
    no [int32] is corrupt: on the object whose annotation is the text
    [{"replicas":z}], with [z] out of the range of [int32],
    [ExtractNginxSpec] returns the error that starts
    [failed to unmarshal nginx from annotation: ], with the type error of
    [json.Unmarshal]. *)
Theorem ExtractNginxSpec_replicas_overflow (o : ObjectMeta) (z : Z) :
  inInt32 z = false ->
  mapIndex (ObjectMeta_Annotations o) "nginx.tsuru.io/generated-from"
  = Some (json.encode (json.Object [("replicas", json.Number z)])) ->
  ExtractNginxSpec o
  = Err ("failed to unmarshal nginx from annotation: " +:+ UnmarshalTypeError).
Proof.
  intros Hz Hann. unfold ExtractNginxSpec, Unmarshal.
  change generatedFromAnnotation with "nginx.tsuru.io/generated-from". rewrite Hann.
  rewrite json_facts.decode_encode by reflexivity.
  cbn [decodeInto NginxSpec_json decodeStruct decodeMembers].
  unfold NginxSpec_field. fold_keys. cbn [decodeInt32Ptr]. by rewrite Hz.
Qed.

(** Property X19.  For a configuration of one of the two kinds it knows,
    on a deployment with a first container, [setupConfig] appends the
    volume [nginx-config] to the volumes of the pod: for the config map
    kind, a config map volume of the config map named by the configuration,
    and the annotations of the pod template are as they were; for the
    inline kind, a downward-API volume with the file [nginx.conf] taken
    from the annotation named by the configuration, which is set to the
    value of the configuration in the pod template while every other
    annotation reads as before.  The metadata of the deployment are
    untouched. *)
Theorem setupConfig_volume (conf : ConfigRef) (dep : Deployment)
    (c : Container ResourceRequirements) (cs : list (Container ResourceRequirements)) :
  Deployment_Containers dep = c :: cs ->
  ConfigRef_Kind conf = ConfigKindConfigMap \/ ConfigRef_Kind conf = ConfigKindInline ->
  exists dep' source,
    setupConfig (Some conf) dep = Some dep'
    /\ Deployment_Volumes dep'
       = Deployment_Volumes dep
         ++ [ {| Volume_Name := "nginx-config"; Volume_VolumeSource := source |} ]
    /\ (ConfigRef_Kind conf = ConfigKindConfigMap ->
        source
        = {| VolumeSource_ConfigMap :=
               Some {| ConfigMapVolumeSource_LocalObjectReference :=
                         {| LocalObjectReference_Name := ConfigRef_Name conf |} |};
             VolumeSource_DownwardAPI := None;
             VolumeSource_Secret := None |}
        /\ Deployment_TemplateAnnotations dep' = Deployment_TemplateAnnotations dep)
    /\ (ConfigRef_Kind conf ≠ ConfigKindConfigMap ->
        source
        = {| VolumeSource_ConfigMap := None;
             VolumeSource_DownwardAPI :=
               Some {| DownwardAPIVolumeSource_Items :=
                         [ {| DownwardAPIVolumeFile_Path := "nginx.conf";
                              DownwardAPIVolumeFile_FieldRef :=
                                Some {| ObjectFieldSelector_FieldPath :=
                                          "metadata.annotations['"
                                          +:+ ConfigRef_Name conf +:+ "']" |} |} ] |};
             VolumeSource_Secret := None |}
        /\ mapIndex (Deployment_TemplateAnnotations dep') (ConfigRef_Name conf)
           = Some (ConfigRef_Value conf)
        /\ forall k, k ≠ ConfigRef_Name conf ->
             mapIndex (Deployment_TemplateAnnotations dep') k
             = mapIndex (Deployment_TemplateAnnotations dep) k)
    /\ Deployment_ObjectMeta dep' = Deployment_ObjectMeta dep
    /\ Deployment_TypeMeta dep' = Deployment_TypeMeta dep.
Proof.
  intros Hc Hkind. unfold setupConfig, assignContainer0. rewrite Hc.
  cbn [mbind option_bind].
  destruct dep as [tm om [rep sel [[tn tns tu tl ta tow] [cs0 vs aff]]]]. cbn in Hc |- *.
  destruct (String.eqb_spec (ConfigRef_Kind conf) ConfigKindConfigMap) as [Hcm|Hcm].
  - eexists _, _. split; [reflexivity|]. split; [reflexivity|]. repeat split; done.
  - destruct Hkind as [?|Hin]; [done|]. rewrite Hin, String.eqb_refl.
    destruct ta as [ta|]; cbn;
      (eexists _, _; split; [reflexivity|]; split; [reflexivity|];
       split; [intros He; by rewrite Hin in Hcm|]; split; [|done]; intros _;
       split; [reflexivity|]);
      unfold mapIndex; cbn; (split; [apply lookup_insert_eq|]); intros k Hk.
    + by apply lookup_insert_ne.
    + rewrite lookup_insert_ne by done. apply lookup_empty.
Qed.

End Builders.

(** ** The further properties on the sample resources *)

Lemma mounts_match_volumes_witness :
  exists n' d c,
    NewDeployment Sample.ConfigKindConfigMap Sample.ConfigKindInline Sample.full
    = Some (n', Ok d)
    /\ Deployment_Containers d = [c]
    /\ map VolumeMount_Name (Container_VolumeMounts c)
       = map Volume_Name (Deployment_Volumes d).
Proof.
  apply (mounts_match_volumes Sample.ConfigKindConfigMap Sample.ConfigKindInline Sample.full).
  intros conf [= <-]. right. reflexivity.
Defined.

Lemma unknown_kind_dangling_mount_witness :
  exists n' d c,
    NewDeployment Sample.ConfigKindConfigMap Sample.ConfigKindInline
      SampleMore.withOtherConfig = Some (n', Ok d)
    /\ Deployment_Containers d = [c]
    /\ ("nginx-config" ∈ map VolumeMount_Name (Container_VolumeMounts c))
    /\ ("nginx-config" ∉ map Volume_Name (Deployment_Volumes d))
    /\ Deployment_TemplateAnnotations d = None.
Proof.
  apply (unknown_kind_dangling_mount Sample.ConfigKindConfigMap Sample.ConfigKindInline
           SampleMore.withOtherConfig Sample.otherConfig);
    [reflexivity|discriminate|discriminate].
Defined.

Lemma tls_volume_agrees_with_spec_witness :
  exists n' d c t' volumes mounts,
    NewDeployment Sample.ConfigKindConfigMap Sample.ConfigKindInline Sample.full
    = Some (n', Ok d)
    /\ NginxSpec_TLSSecret (Nginx_Spec n') = Some t'
    /\ Deployment_Containers d = [c]
    /\ Deployment_Volumes d
       = volumes ++
         [ {| Volume_Name := "nginx-certs";
              Volume_VolumeSource :=
                {| VolumeSource_ConfigMap := None;
                   VolumeSource_DownwardAPI := None;
                   VolumeSource_Secret :=
                     Some {| SecretVolumeSource_SecretName := "mysecret";
                             SecretVolumeSource_Items :=
                               [ {| KeyToPath_Key := TLSSecret_KeyField t';
                                    KeyToPath_Path := TLSSecret_KeyPath t' |};
                                 {| KeyToPath_Key := TLSSecret_CertificateField t';
                                    KeyToPath_Path := TLSSecret_CertificatePath t' |} ] |} |} |} ]
    /\ Container_VolumeMounts c
       = mounts ++ [ {| VolumeMount_Name := "nginx-certs";
                        VolumeMount_MountPath := "/etc/nginx/certs" |} ]
    /\ TLSSecret_KeyField t' ≠ "" /\ TLSSecret_KeyPath t' ≠ ""
    /\ TLSSecret_CertificateField t' ≠ "" /\ TLSSecret_CertificatePath t' ≠ "".
Proof.
  apply (tls_volume_agrees_with_spec Sample.ConfigKindConfigMap Sample.ConfigKindInline
           Sample.full Sample.secret).
  reflexivity.
Defined.

Lemma configmap_volume_witness :
  exists n' d c volumes mounts,
    NewDeployment Sample.ConfigKindConfigMap Sample.ConfigKindInline
      SampleMore.withConfigMap = Some (n', Ok d)
    /\ Deployment_Containers d = [c]
    /\ Deployment_Volumes d
       = {| Volume_Name := "nginx-config";
            Volume_VolumeSource :=
              {| VolumeSource_ConfigMap :=
                   Some {| ConfigMapVolumeSource_LocalObjectReference :=
                             {| LocalObjectReference_Name := "site" |} |};
                 VolumeSource_DownwardAPI := None;
                 VolumeSource_Secret := None |} |} :: volumes
    /\ Container_VolumeMounts c
       = {| VolumeMount_Name := "nginx-config"; VolumeMount_MountPath := "/etc/nginx" |}
         :: mounts
    /\ Deployment_TemplateAnnotations d = None.
Proof.
  apply (configmap_volume Sample.ConfigKindConfigMap Sample.ConfigKindInline
           SampleMore.withConfigMap SampleMore.configMapRef); reflexivity.
Defined.

Lemma bare_resource_witness :
  exists n' d c,
    NewDeployment Sample.ConfigKindConfigMap Sample.ConfigKindInline SampleMore.bare
    = Some (n', Ok d)
    /\ Deployment_Containers d = [c]
    /\ Deployment_Volumes d = []
    /\ Container_VolumeMounts c = []
    /\ Deployment_TemplateAnnotations d = None
    /\ map ContainerPort_ContainerPort (Container_Ports c) = [80]
    /\ map ServicePort_Port (ServiceSpec_Ports (Service_Spec (NewService SampleMore.bare)))
       = [80].
Proof.
  apply (bare_resource Sample.ConfigKindConfigMap Sample.ConfigKindInline SampleMore.bare);
    reflexivity.
Defined.

Lemma SetNginxSpec_keeps_rest_witness :
  let o' := (SetNginxSpec SampleMore.annotated (Nginx_Spec Sample.full)).1 in
  (SetNginxSpec SampleMore.annotated (Nginx_Spec Sample.full)).2 = None
  /\ mapIndex (ObjectMeta_Annotations o') "owner" = Some "team-a"
  /\ ObjectMeta_Name o' = "web".
Proof.
  destruct (SetNginxSpec_keeps_rest SampleMore.annotated (Nginx_Spec Sample.full) "owner")
    as (Herr & Hann & Hname & _); [discriminate|].
  split; [exact Herr|]. split; [|exact Hname].
  etransitivity; [exact Hann|reflexivity].
Defined.

Lemma annotation_tells_specs_apart_witness :
  mapIndex (ObjectMeta_Annotations
              (SetNginxSpec Sample.identity (Nginx_Spec Sample.full)).1)
    "nginx.tsuru.io/generated-from"
  ≠ mapIndex (ObjectMeta_Annotations
                (SetNginxSpec SampleMore.annotated (Nginx_Spec SampleMore.bare)).1)
      "nginx.tsuru.io/generated-from".
Proof.
  intros Heq.
  apply (annotation_tells_specs_apart Sample.identity SampleMore.annotated
           (Nginx_Spec Sample.full) (Nginx_Spec SampleMore.bare)) in Heq.
  - destruct Heq as (_ & _ & Hconfig & _). discriminate Hconfig.
  - refine (conj _ (conj _ (conj _ (conj _ (conj _ _)))));
      [ reflexivity | intros ? [= <-]; reflexivity | intros ? [= <-]; repeat split
      | intros ? [= <-]; repeat split | split; [reflexivity|discriminate]
      | intros ? [= <-]; (split; [reflexivity|discriminate]) ].
  - refine (conj _ (conj _ (conj _ (conj _ (conj _ _)))));
      [ reflexivity | intros ? [= <-]; reflexivity | intros ? [=]
      | intros ? [=] | split; [reflexivity|discriminate]
      | intros ? [= <-]; (split; [reflexivity|discriminate]) ].
Defined.

Lemma regenerate_from_annotation_witness :
  exists n1 d1 s,
    NewDeployment Sample.ConfigKindConfigMap Sample.ConfigKindInline Sample.full
    = Some (n1, Ok d1)
    /\ ExtractNginxSpec (Deployment_ObjectMeta d1) = Ok s
    /\ NewDeployment Sample.ConfigKindConfigMap Sample.ConfigKindInline
         (Nginx_setSpec Sample.full s) = Some (n1, Ok d1)
    /\ NewService (Nginx_setSpec Sample.full s) = NewService Sample.full.
Proof.
  apply (regenerate_from_annotation Sample.ConfigKindConfigMap Sample.ConfigKindInline
           Sample.full).
  sample_valid.
Defined.

Lemma setup_without_container_witness :
  setupConfig Sample.ConfigKindConfigMap Sample.ConfigKindInline
    (Some Sample.inlineConfig) SampleMore.empty = None
  /\ setupTLS (Some Sample.secret) SampleMore.empty = None.
Proof.
  destruct (setup_without_container Sample.ConfigKindConfigMap Sample.ConfigKindInline
              SampleMore.empty eq_refl) as (Hconfig & Htls & _).
  split; [apply Hconfig|apply Htls].
Defined.

Lemma ExtractNginxSpec_replicas_overflow_witness :
  (ExtractNginxSpec SampleMore.overflow
     : result (NginxSpec Sample.Quantities Sample.Quantities))
  = Err ("failed to unmarshal nginx from annotation: " +:+ UnmarshalTypeError).
Proof.
  apply (ExtractNginxSpec_replicas_overflow SampleMore.overflow 2147483648); reflexivity.
Defined.

Lemma setupConfig_volume_witness :
  exists dep' source,
    setupConfig Sample.ConfigKindConfigMap Sample.ConfigKindInline
      (Some Sample.inlineConfig) Sample.deployment = Some dep'
    /\ Deployment_Volumes dep'
       = [ {| Volume_Name := "nginx-config"; Volume_VolumeSource := source |} ]
    /\ mapIndex (Deployment_TemplateAnnotations dep') "custom"
       = Some "worker_processes 2;".
Proof.
  destruct (setupConfig_volume Sample.ConfigKindConfigMap Sample.ConfigKindInline
              Sample.inlineConfig Sample.deployment Sample.container [] eq_refl
              (or_intror eq_refl))
    as (dep' & source & Hrun & Hvolumes & _ & Hinline & _).
  exists dep', source. split; [exact Hrun|]. split; [exact Hvolumes|].
  destruct Hinline as (_ & Hannotation & _); [discriminate|exact Hannotation].
Defined.

Lemma setupTLS_effect_witness :
  exists dep',
    setupTLS (Some Sample.secret) Sample.deployment
    = Some (Some {| TLSSecret_SecretName := "mysecret";
                    TLSSecret_KeyField := "tls.key";
                    TLSSecret_CertificateField := "tls.crt";
                    TLSSecret_KeyPath := "tls.key";
                    TLSSecret_CertificatePath := "tls.crt" |}, dep')
    /\ map Volume_Name (Deployment_Volumes dep') = ["nginx-certs"].
Proof.
  destruct (setupTLS_effect Sample.secret Sample.deployment Sample.container [] eq_refl)
    as (dep' & Hrun & _ & Hvolumes & _).
  exists dep'. split; [exact Hrun|]. rewrite Hvolumes. reflexivity.
Defined.
